(** * Story publisher of twinejs: [src/store/publish/helpers.js]

    A shallow embedding of the four publishing functions
    ([publishPassage], [publishStory], [publishArchive],
    [publishStoryWithFormat]) and of the JavaScript primitives they rest
    on, followed by the properties of the published markup.

    Conventions of the embedding.
    - A JavaScript string is a [string]; every operation used here acts on
      ASCII characters only, so the encoding of other characters is
      irrelevant.
    - [undefined] and [null] are the [None] of an [option].
    - A [throw] is the [Throw] of a [completion].
    - IEEE numbers stay abstract behind the interface [JSNumber]; the
      1-based passage numbers are natural numbers printed in decimal.
    - An object used as a map from strings to strings is the list of its
      entries in the order of [Object.keys].

    [publishArchiveToFile] reads the clock and calls [Blob] and
    [saveAs]; what the environment supplies is an argument of its
    embedding, and the call of [saveAs] is its result. *)

From Stdlib Require Import Bool Arith ZArith Lia List.
From Stdlib Require Import Ascii String DecimalString.
From Stdlib Require DecimalFacts DecimalNat.
Import ListNotations.

Open Scope string_scope.

(** ** JavaScript primitives *)

(** Truthiness of a string-or-absent value: [undefined], [null] and the
    empty string are falsy. *)
Definition truthy (v : option string) : bool :=
  match v with
  | None => false
  | Some s => negb (s =? "")
  end.

(** [a || b] on such values. *)
Definition or_else (a b : option string) : option string :=
  if truthy a then a else b.

(** [Array.prototype.join]. *)
Definition Array_join (sep : string) (a : list string) : string :=
  String.concat sep a.

(** [Array.prototype.toString], which is what [+] applies to an array
    operand: the elements joined by a comma. *)
Definition Array_toString (a : list string) : string :=
  Array_join "," a.

(** [Number::toString] of a non-negative integer (an array index plus
    one stays far below the range where exponents are printed). *)
Definition nat_toString (n : nat) : string :=
  NilZero.string_of_uint (Nat.to_uint n).

(** [Array.prototype.forEach] with the callback written as a state
    transformer: [f st x index] is the state after the callback ran on
    element [x] at position [index]. *)
Fixpoint forEach {A St : Type} (f : St -> A -> nat -> St)
  (a : list A) (index : nat) (st : St) : St :=
  match a with
  | [] => st
  | x :: a' => forEach f a' (S index) (f st x index)
  end.

(** ** lodash.escape

    The package is a dependency, not part of the repository. This is
    the table of its version 4.0.1, the one the publisher imports: the
    characters [&], [<], [>], double quote (character 34), single quote
    and backtick become HTML entities, everything else is kept. *)

Definition htmlEscapes (chr : ascii) : option string :=
  match chr with
  | "&"%char => Some "&amp;"
  | "<"%char => Some "&lt;"
  | ">"%char => Some "&gt;"
  | "034"%char => Some "&quot;"
  | "'"%char => Some "&#39;"
  | "`"%char => Some "&#96;"
  | _ => None
  end.

Definition escapeHtmlChar (chr : ascii) : string :=
  match htmlEscapes chr with
  | Some entity => entity
  | None => String chr ""
  end.

(** [escape] on a value that already is a string. *)
Fixpoint escape (s : string) : string :=
  match s with
  | "" => ""
  | String chr s' => escapeHtmlChar chr ++ escape s'
  end.

(** lodash's [toString] maps [null] and [undefined] to the empty string
    before escaping. *)
Definition escape_nullable (v : option string) : string :=
  match v with
  | None => ""
  | Some s => escape s
  end.

(** A string without any of the six characters [escape] rewrites. *)
Fixpoint plain (s : string) : bool :=
  match s with
  | "" => true
  | String chr s' =>
      match htmlEscapes chr with
      | Some _ => false
      | None => plain s'
      end
  end.

(** IEEE numbers as the publisher sees them: it only ever prints them.
    [Number_toString] is the language's number-to-string conversion,
    whose results are made of digits, [.], [-], [+], [e] and the words
    [Infinity] and [NaN]; [isNegativeZero] is lodash's test
    [1 / value == -INFINITY]. *)
Class JSNumber (number : Type) : Type := {
  Number_toString : number -> string;
  isNegativeZero : number -> bool;
  Number_toString_plain : forall x : number, plain (Number_toString x) = true
}.

(** lodash's [baseToString] on a number; it keeps the sign of [-0]. *)
Definition baseToString {number : Type} `{JSNumber number}
  (value : number) : string :=
  let result := Number_toString value in
  if (result =? "0") && isNegativeZero value then "-0" else result.

(** [escape] called on a number. *)
Definition escape_number {number : Type} `{JSNumber number}
  (value : number) : string :=
  escape (baseToString value).

(** [escape] called on a passage number. *)
Definition escape_nat (n : nat) : string :=
  escape (nat_toString n).

(** ** Exceptions *)

Inductive exn : Type :=
| Error (message : string).

Inductive completion (A : Type) : Type :=
| Return (value : A)
| Throw (e : exn).

Arguments Return {A} value.
Arguments Throw {A} e.

(** The three errors of the publisher, under the names the
    specification gives them. *)
Definition MissingTemplateSource : exn :=
  Error "Story format has no source property.".

Definition NoStartPoint : exn :=
  Error "There is no starting point set for this story.".

Definition StartPointNotFound : exn :=
  Error "The passage set as starting point for this story does not exist.".

(** ** Data model *)

Module Passage.
Record t (number : Type) : Type := Build {
  id : string;
  name : string;
  tags : list string;
  left : number;
  top : number;
  width : number;
  height : number;
  text : string
}.
Arguments Build {number}.
Arguments id {number}.
Arguments name {number}.
Arguments tags {number}.
Arguments left {number}.
Arguments top {number}.
Arguments width {number}.
Arguments height {number}.
Arguments text {number}.
End Passage.

Module Story.
(** [tagColors] lists the own properties of the object in the order
    [Object.keys] enumerates them. *)
Record t (number : Type) : Type := Build {
  name : string;
  ifid : string;
  zoom : number;
  storyFormat : string;
  storyFormatVersion : string;
  stylesheet : string;
  script : string;
  tagColors : list (string * string);
  startPassage : option string;
  passages : list (Passage.t number)
}.
Arguments Build {number}.
Arguments name {number}.
Arguments ifid {number}.
Arguments zoom {number}.
Arguments storyFormat {number}.
Arguments storyFormatVersion {number}.
Arguments stylesheet {number}.
Arguments script {number}.
Arguments tagColors {number}.
Arguments startPassage {number}.
Arguments passages {number}.
End Story.

Module AppInfo.
Record t : Type := Build {
  name : string;
  version : string
}.
End AppInfo.

Module Format.
Record props : Type := BuildProps {
  source : option string
}.
Record t : Type := Build {
  properties : option props
}.
End Format.

(** [Object.keys] and property lookup on a string-to-string object. *)
Definition Object_keys (o : list (string * string)) : list string :=
  map fst o.

Fixpoint Object_get (o : list (string * string)) (key : string)
  : option string :=
  match o with
  | [] => None
  | (k, v) :: o' => if k =? key then Some v else Object_get o' key
  end.

(** ** Markup pieces *)

(** The double quote and the line feed as one-character strings. *)
Definition dquote : string := String "034"%char "".
Definition newline : string := String "010"%char "".

(** [name="value"], the shape of every attribute in the templates. *)
Definition attr (name value : string) : string :=
  name ++ "=" ++ dquote ++ value ++ dquote.

(** ** Computations that throw and count

    [publishStoryWithFormat] hands callbacks to [String.prototype.replace];
    how often the callback runs [publishStory] is part of its behaviour.
    A [counted] computation threads the number of [publishStory] calls
    made so far and stops at the first [throw]. *)

Definition counted (A : Type) : Type := nat -> completion A * nat.

Definition ret {A : Type} (a : A) : counted A :=
  fun calls => (Return a, calls).

Definition throw {A : Type} (e : exn) : counted A :=
  fun calls => (Throw e, calls).

Definition bind {A B : Type} (m : counted A) (k : A -> counted B)
  : counted B :=
  fun calls =>
    match m calls with
    | (Return a, calls') => k a calls'
    | (Throw e, calls') => (Throw e, calls')
    end.

Notation "x <- m ;; k" := (bind m (fun x => k))
  (at level 61, m at next level, right associativity).

(** One call of a function whose completion is [c]. *)
Definition call {A : Type} (c : completion A) : counted A :=
  fun calls => (c, S calls).

(** Running a computation from a fresh counter. *)
Definition run {A : Type} (m : counted A) : completion A * nat := m 0.

(** [s.replace(/token/g, replacer)] for a pattern that is a literal,
    non-empty token and a replacer that is a function: the matches are
    the leftmost non-overlapping occurrences of the token, the replacer
    runs once per match from left to right, and what it returns is
    inserted as it is. [skip] counts the characters of the current match
    still to be passed over. *)
Fixpoint replace_from (token : string) (replacer : counted string)
  (skip : nat) (s : string) : counted string :=
  match s with
  | "" => ret ""
  | String chr s' =>
      match skip with
      | S skip' => replace_from token replacer skip' s'
      | O =>
          if prefix token s then
            replacement <- replacer ;;
            rest <- replace_from token replacer (length token - 1) s' ;;
            ret (replacement ++ rest)
          else
            rest <- replace_from token replacer 0 s' ;;
            ret (String chr rest)
      end
  end.

Definition String_replace (token : string) (replacer : counted string)
  (s : string) : counted string :=
  replace_from token replacer 0 s.

(** [Array.prototype.reduce] with a callback that may throw. *)
Fixpoint reduce {A B : Type} (f : B -> A -> completion B)
  (a : list A) (init : B) : completion B :=
  match a with
  | [] => Return init
  | x :: a' =>
      match f init x with
      | Return acc => reduce f a' acc
      | Throw e => Throw e
      end
  end.

(** ** The publisher *)

Section Publisher.

Context {number : Type} `{JSNumber number}.

(** [publishPassage(passage, localId)] *)
Definition publishPassage (passage : Passage.t number) (localId : nat)
  : string :=
  "<tw-passagedata " ++ attr "pid" (escape_nat localId) ++ " " ++
  attr "name" (escape (Passage.name passage)) ++ " " ++
  attr "tags" (escape (Array_join " " (Passage.tags passage))) ++ " " ++
  attr "position"
    (Number_toString (Passage.left passage) ++ "," ++
     Number_toString (Passage.top passage)) ++ " " ++
  attr "size"
    (Number_toString (Passage.width passage) ++ "," ++
     Number_toString (Passage.height passage)) ++ ">" ++
  escape (Passage.text passage) ++ "</tw-passagedata>".

(** [p.id === startId] *)
Definition id_is (startId : option string) (p : Passage.t number) : bool :=
  match startId with
  | Some s => Passage.id p =? s
  | None => false
  end.

(** What the [forEach] of [publishStory] updates. *)
Record walk : Type := Walk {
  passageData : string;
  startLocalId : option nat
}.

(** The body of that [forEach]. *)
Definition visit (startId : option string) (st : walk)
  (p : Passage.t number) (index : nat) : walk :=
  {| passageData := passageData st ++ publishPassage p (index + 1);
     startLocalId :=
       if id_is startId p then Some (index + 1) else startLocalId st |}.

(** [startLocalId || ''] inside a template literal. *)
Definition startnode (startLocalId : option nat) : string :=
  match startLocalId with
  | None => ""
  | Some O => ""
  | Some n => nat_toString n
  end.

(** The array [tagData]. *)
Definition tagData (story : Story.t number) : list string :=
  map
    (fun tag =>
       "<tw-tag " ++ attr "name" (escape tag) ++ " " ++
       attr "color"
         (escape_nullable (Object_get (Story.tagColors story) tag)) ++
       "></tw-tag>")
    (Object_keys (Story.tagColors story)).

(** The opening tag of the story element, up to and including
    [hidden>]. *)
Definition storyOpenTag (appInfo : AppInfo.t) (story : Story.t number)
  (formatOptions : option string) (startLocalId : option nat) : string :=
  "<tw-storydata " ++ attr "name" (escape (Story.name story)) ++ " " ++
  attr "startnode" (startnode startLocalId) ++ " " ++
  attr "creator" (escape (AppInfo.name appInfo)) ++ " " ++
  attr "creator-version" (escape (AppInfo.version appInfo)) ++ " " ++
  attr "ifid" (escape (Story.ifid story)) ++ " " ++
  attr "zoom" (escape_number (Story.zoom story)) ++ " " ++
  attr "format" (escape (Story.storyFormat story)) ++ " " ++
  attr "format-version" (escape (Story.storyFormatVersion story)) ++ " " ++
  attr "options" (escape_nullable formatOptions) ++ " hidden>".

Definition styleElement (story : Story.t number) : string :=
  "<style " ++ attr "role" "stylesheet" ++ " " ++
  attr "id" "twine-user-stylesheet" ++ " " ++
  attr "type" "text/twine-css" ++ ">" ++
  Story.stylesheet story ++
  "</style>".

Definition scriptElement (story : Story.t number) : string :=
  "<script " ++ attr "role" "script" ++ " " ++
  attr "id" "twine-user-script" ++ " " ++
  attr "type" "text/twine-javascript" ++ ">" ++
  Story.script story ++
  "</script>".

(** [publishStory(appInfo, story, formatOptions, startId, startOptional)] *)
Definition publishStory (appInfo : AppInfo.t) (story : Story.t number)
  (formatOptions : option string) (startId : option string)
  (startOptional : bool) : completion string :=
  let startId := or_else startId (Story.startPassage story) in
  if negb startOptional && negb (truthy startId) then
    Throw NoStartPoint
  else if negb startOptional &&
          match find (id_is startId) (Story.passages story) with
          | Some _ => false
          | None => true
          end
  then
    Throw StartPointNotFound
  else
    let st :=
      forEach (visit startId) (Story.passages story) 0
        {| passageData := ""; startLocalId := None |} in
    Return
      (storyOpenTag appInfo story formatOptions (startLocalId st) ++
       styleElement story ++
       scriptElement story ++
       Array_toString (tagData story) ++
       passageData st ++
       "</tw-storydata>").

(** [publishArchive(stories, appInfo)] *)
Definition publishArchive (stories : list (Story.t number))
  (appInfo : AppInfo.t) : completion string :=
  reduce
    (fun output story =>
       match publishStory appInfo story None None true with
       | Return published =>
           Return ((output ++ published) ++ newline ++ newline)
       | Throw e => Throw e
       end)
    stories "".

(** [publishStoryWithFormat(appInfo, story, format, formatOptions,
    startId)]; [publishStory] is called without its fifth argument,
    hence with a falsy [startOptional]. *)
Definition publishStoryWithFormat (appInfo : AppInfo.t)
  (story : Story.t number) (format : Format.t)
  (formatOptions : option string) (startId : option string)
  : counted string :=
  match Format.properties format with
  | None => throw MissingTemplateSource
  | Some properties =>
      match Format.source properties with
      | None => throw MissingTemplateSource
      | Some source =>
          if source =? "" then throw MissingTemplateSource
          else
            output <- String_replace "{{STORY_NAME}}"
                        (ret (escape (Story.name story))) source ;;
            String_replace "{{STORY_DATA}}"
              (call (publishStory appInfo story formatOptions startId
                       false))
              output
      end
  end.

End Publisher.

(** ** The archive file

    [publishArchiveToFile(stories, appInfo)] reads the clock, builds a
    [Blob] and calls [saveAs]. The embedding takes what the environment
    supplies as arguments, [localeString] for
    [new Date().toLocaleString()] and [t] for the translation function,
    and returns the call of [saveAs] it makes. *)

(** The characters of the class in [/[\/:\\]/g]: slash, colon and
    backslash. *)
Definition path_unsafe (chr : ascii) : bool :=
  (chr =? "/")%char || (chr =? ":")%char || (chr =? "\")%char.

(** [s.replace(/[\/:\\]/g, '.')]; the replacement string has no [$], so
    it is inserted as it is. *)
Fixpoint replace_path_unsafe (s : string) : string :=
  match s with
  | "" => ""
  | String chr s' =>
      (if path_unsafe chr then "." else String chr "") ++
      replace_path_unsafe s'
  end.

(** [new Blob(parts, {type})]. *)
Record Blob : Type := NewBlob {
  blobParts : list string;
  blobType : string
}.

(** One call [saveAs(data, filename)]. *)
Record saveAs_call : Type := SaveAs {
  saved_data : Blob;
  saved_filename : string
}.

Definition publishArchiveToFile {number : Type} `{JSNumber number}
  (localeString : string) (t : string -> string)
  (stories : list (Story.t number)) (appInfo : AppInfo.t)
  : completion saveAs_call :=
  let timestamp := replace_path_unsafe localeString in
  match publishArchive stories appInfo with
  | Throw e => Throw e
  | Return archive =>
      let data :=
        {| blobParts := [archive]; blobType := "text/html;charset=utf-8" |} in
      Return
        {| saved_data := data;
           saved_filename := timestamp ++ " " ++ t "store.archiveFilename" |}
  end.

(** ** Definitions used to state the properties *)

(** The string without its first [n] characters. *)
Fixpoint drop (n : nat) (s : string) : string :=
  match n, s with
  | O, _ => s
  | S _, "" => ""
  | S n', String _ s' => drop n' s'
  end.

(** A string is in escaped form when none of [<], [>], double quote,
    single quote and backtick occurs in it and every [&] starts one of
    the six entities. *)
Definition entities : list string :=
  ["&amp;"; "&lt;"; "&gt;"; "&quot;"; "&#39;"; "&#96;"].

Fixpoint escaped_form (s : string) : bool :=
  match s with
  | "" => true
  | String chr s' =>
      match htmlEscapes chr with
      | None => escaped_form s'
      | Some _ =>
          (chr =? "&")%char && existsb (fun e => prefix e s) entities &&
          escaped_form s'
      end
  end.

(** The pieces of [s] between the matches of [token], the first piece
    apart: [split_from token 0 s = (p0, [p1; ...; pn])] when the matches
    found by [replace_from] cut [s] into [p0], ..., [pn]. *)
Fixpoint split_from (token : string) (skip : nat) (s : string)
  : string * list string :=
  match s with
  | "" => ("", [])
  | String chr s' =>
      match skip with
      | S skip' => split_from token skip' s'
      | O =>
          if prefix token s then
            let (p, ps) := split_from token (length token - 1) s' in
            ("", p :: ps)
          else
            let (p, ps) := split_from token 0 s' in
            (String chr p, ps)
      end
  end.

Definition pieces (token s : string) : string * list string :=
  split_from token 0 s.

(** The pieces put together again with [sep] between them. *)
Fixpoint glue_rest (sep : string) (ps : list string) : string :=
  match ps with
  | [] => ""
  | p :: ps' => sep ++ p ++ glue_rest sep ps'
  end.

Definition glue (sep : string) (ps : string * list string) : string :=
  fst ps ++ glue_rest sep (snd ps).

(** The two placeholders of a story format. *)
Definition STORY_NAME : string := "{{STORY_NAME}}".
Definition STORY_DATA : string := "{{STORY_DATA}}".

(** [token] occurs somewhere in [p]. *)
Definition occurs_in (token p : string) : Prop :=
  exists a b, p = a ++ token ++ b.

(** The number of matches of [token] in [s]. *)
Definition occurrences (token s : string) : nat :=
  List.length (snd (pieces token s)).

(** Replacing every match by one fixed string. *)
Definition replaceAll (token replacement s : string) : string :=
  glue replacement (pieces token s).

(** The passage elements of a list of passages numbered from
    [index + 1]. *)
Fixpoint passageElements {number : Type} `{JSNumber number}
  (ps : list (Passage.t number)) (index : nat) : string :=
  match ps with
  | [] => ""
  | p :: ps' => publishPassage p (index + 1) ++ passageElements ps' (S index)
  end.

(** A passage with another name and text, a story with another name,
    a story with other passages. *)
Definition retitle {number : Type} (name text : string)
  (p : Passage.t number) : Passage.t number :=
  Passage.Build (Passage.id p) name (Passage.tags p) (Passage.left p)
    (Passage.top p) (Passage.width p) (Passage.height p) text.

Definition rename {number : Type} (name : string) (story : Story.t number)
  : Story.t number :=
  Story.Build name (Story.ifid story) (Story.zoom story)
    (Story.storyFormat story) (Story.storyFormatVersion story)
    (Story.stylesheet story) (Story.script story) (Story.tagColors story)
    (Story.startPassage story) (Story.passages story).

Definition with_passages {number : Type} (ps : list (Passage.t number))
  (story : Story.t number) : Story.t number :=
  Story.Build (Story.name story) (Story.ifid story) (Story.zoom story)
    (Story.storyFormat story) (Story.storyFormatVersion story)
    (Story.stylesheet story) (Story.script story) (Story.tagColors story)
    (Story.startPassage story) ps.


(** What a completion returned, the empty string if it threw. *)
Definition returned (c : completion string) : string :=
  match c with
  | Return value => value
  | Throw _ => ""
  end.

(** The markup [publishStory] returns when it returns. *)
Definition storyMarkup {number : Type} `{JSNumber number}
  (appInfo : AppInfo.t) (story : Story.t number)
  (formatOptions startId : option string) : string :=
  let st :=
    forEach (visit startId) (Story.passages story) 0
      {| passageData := ""; startLocalId := None |} in
  storyOpenTag appInfo story formatOptions (startLocalId st) ++
  styleElement story ++
  scriptElement story ++
  Array_toString (tagData story) ++
  passageData st ++
  "</tw-storydata>".

(** What follows the value of the [name] attribute in that markup. *)
Definition afterName {number : Type} `{JSNumber number}
  (appInfo : AppInfo.t) (story : Story.t number)
  (formatOptions startId : option string) : string :=
  let st :=
    forEach (visit startId) (Story.passages story) 0
      {| passageData := ""; startLocalId := None |} in
  dquote ++ " " ++
  attr "startnode" (startnode (startLocalId st)) ++ " " ++
  attr "creator" (escape (AppInfo.name appInfo)) ++ " " ++
  attr "creator-version" (escape (AppInfo.version appInfo)) ++ " " ++
  attr "ifid" (escape (Story.ifid story)) ++ " " ++
  attr "zoom" (escape_number (Story.zoom story)) ++ " " ++
  attr "format" (escape (Story.storyFormat story)) ++ " " ++
  attr "format-version" (escape (Story.storyFormatVersion story)) ++ " " ++
  attr "options" (escape_nullable formatOptions) ++ " hidden>" ++
  styleElement story ++
  scriptElement story ++
  Array_toString (tagData story) ++
  passageData st ++
  "</tw-storydata>".

(** Whether the format has a template the publisher accepts:
    [properties] and [properties.source] are there and the source is not
    the empty string. *)
Definition usable (format : Format.t) : bool :=
  match Format.properties format with
  | None => false
  | Some properties => truthy (Format.source properties)
  end.

(** One tag element. *)
Definition tagElement (name color : string) : string :=
  "<tw-tag " ++ attr "name" (escape name) ++ " " ++
  attr "color" (escape color) ++ "></tw-tag>".

(** A story with another stylesheet, with another script. *)
Definition with_stylesheet {number : Type} (stylesheet : string)
  (story : Story.t number) : Story.t number :=
  Story.Build (Story.name story) (Story.ifid story) (Story.zoom story)
    (Story.storyFormat story) (Story.storyFormatVersion story)
    stylesheet (Story.script story) (Story.tagColors story)
    (Story.startPassage story) (Story.passages story).

Definition with_script {number : Type} (script : string)
  (story : Story.t number) : Story.t number :=
  Story.Build (Story.name story) (Story.ifid story) (Story.zoom story)
    (Story.storyFormat story) (Story.storyFormatVersion story)
    (Story.stylesheet story) script (Story.tagColors story)
    (Story.startPassage story) (Story.passages story).

(** A string without an opening brace. *)
Fixpoint no_brace (s : string) : bool :=
  match s with
  | "" => true
  | String chr s' => negb (chr =? "{")%char && no_brace s'
  end.

(** A template seen as a sequence of literal texts and placeholders, the
    template it stands for, and the template with a name and a
    serialized story in place of the placeholders. *)
Inductive part : Type :=
| Text (s : string)
| NamePlaceholder
| DataPlaceholder.

Definition literal_ok (x : part) : bool :=
  match x with
  | Text s => no_brace s
  | _ => true
  end.

Definition is_data (x : part) : bool :=
  match x with
  | DataPlaceholder => true
  | _ => false
  end.

Fixpoint render (parts : list part) : string :=
  match parts with
  | [] => ""
  | Text s :: parts' => s ++ render parts'
  | NamePlaceholder :: parts' => STORY_NAME ++ render parts'
  | DataPlaceholder :: parts' => STORY_DATA ++ render parts'
  end.

Fixpoint bound (name data : string) (parts : list part) : string :=
  match parts with
  | [] => ""
  | Text s :: parts' => s ++ bound name data parts'
  | NamePlaceholder :: parts' => name ++ bound name data parts'
  | DataPlaceholder :: parts' => data ++ bound name data parts'
  end.

(** A string without slash, colon and backslash, and what the
    replacement of [publishArchiveToFile] does to one character. *)
Fixpoint path_safe (s : string) : bool :=
  match s with
  | "" => true
  | String chr s' => negb (path_unsafe chr) && path_safe s'
  end.

Definition dot_if_unsafe (chr : ascii) : ascii :=
  if path_unsafe chr then "."%char else chr.

(** A passage with other tags. *)
Definition with_tags {number : Type} (tags : list string)
  (p : Passage.t number) : Passage.t number :=
  Passage.Build (Passage.id p) (Passage.name p) tags (Passage.left p)
    (Passage.top p) (Passage.width p) (Passage.height p) (Passage.text p).

(** ** Strings *)

Lemma append_assoc (a b c : string) : (a ++ b) ++ c = a ++ b ++ c.
Proof. induction a as [|x a IH]; simpl; [reflexivity | now rewrite IH]. Qed.

Lemma append_nil_r (a : string) : a ++ "" = a.
Proof. induction a as [|x a IH]; simpl; [reflexivity | now rewrite IH]. Qed.

Lemma length_append (a b : string) :
  String.length (a ++ b) = String.length a + String.length b.
Proof. induction a as [|x a IH]; simpl; [reflexivity | now rewrite IH]. Qed.

Lemma prefix_nil (s : string) : prefix "" s = true.
Proof. now destruct s. Qed.

Lemma prefix_append (t s : string) : prefix t (t ++ s) = true.
Proof.
  induction t as [|x t IH]; simpl.
  - now destruct s.
  - destruct (ascii_dec x x) as [_|ne]; [exact IH | now elim ne].
Qed.

Lemma prefix_split (t s : string) :
  prefix t s = true -> s = t ++ drop (String.length t) s.
Proof.
  revert s; induction t as [|x t IH]; intros s Hp; simpl.
  - reflexivity.
  - destruct s as [|y s]; simpl in Hp; [discriminate|].
    destruct (ascii_dec x y) as [->|]; [|discriminate].
    simpl. f_equal. now apply IH.
Qed.

Lemma drop_append (t s : string) : drop (String.length t) (t ++ s) = s.
Proof. induction t as [|x t IH]; simpl; [reflexivity | exact IH]. Qed.

Lemma concat_cons (x : string) (l : list string) :
  String.concat "" (x :: l) = x ++ String.concat "" l.
Proof. destruct l; simpl; [now rewrite append_nil_r | reflexivity]. Qed.

Lemma drop_nil (n : nat) : drop n "" = "".
Proof. now destruct n. Qed.

(** ** Escaping *)

Lemma htmlEscapes_cases (chr : ascii) (entity : string) :
  htmlEscapes chr = Some entity ->
  (chr = "&"%char /\ entity = "&amp;") \/
  (chr = "<"%char /\ entity = "&lt;") \/
  (chr = ">"%char /\ entity = "&gt;") \/
  (chr = "034"%char /\ entity = "&quot;") \/
  (chr = "'"%char /\ entity = "&#39;") \/
  (chr = "`"%char /\ entity = "&#96;").
Proof.
  destruct chr as [[] [] [] [] [] [] [] []]; simpl; intros E;
    try discriminate; injection E as <-; tauto.
Qed.

Lemma escape_append (a b : string) : escape (a ++ b) = escape a ++ escape b.
Proof.
  induction a as [|x a IH]; simpl; [reflexivity|].
  now rewrite IH, append_assoc.
Qed.

Lemma escape_plain (s : string) : plain s = true -> escape s = s.
Proof.
  induction s as [|x s IH]; simpl; [reflexivity|].
  unfold escapeHtmlChar. destruct (htmlEscapes x); [discriminate|].
  intros Hs. simpl. now rewrite IH.
Qed.

Lemma plain_append (a b : string) :
  plain (a ++ b) = plain a && plain b.
Proof.
  induction a as [|x a IH]; simpl; [reflexivity|].
  now destruct (htmlEscapes x).
Qed.

Lemma plain_escaped_form (s : string) :
  plain s = true -> escaped_form s = true.
Proof.
  induction s as [|x s IH]; simpl; [reflexivity|].
  now destruct (htmlEscapes x).
Qed.

Lemma escaped_form_escape (s : string) : escaped_form (escape s) = true.
Proof.
  induction s as [|x s IH]; [reflexivity|].
  cbn [escape]. unfold escapeHtmlChar.
  destruct (htmlEscapes x) as [entity|] eqn:E.
  - destruct (htmlEscapes_cases _ _ E)
      as [[-> ->]|[[-> ->]|[[-> ->]|[[-> ->]|[[-> ->]|[-> ->]]]]]];
      simpl; rewrite prefix_nil; simpl; exact IH.
  - simpl. now rewrite E.
Qed.

Lemma plain_string_of_uint (d : Decimal.uint) :
  plain (NilEmpty.string_of_uint d) = true.
Proof. induction d; simpl; auto. Qed.

Lemma plain_nat_toString (n : nat) : plain (nat_toString n) = true.
Proof.
  unfold nat_toString, NilZero.string_of_uint.
  destruct (Nat.to_uint n); try reflexivity;
    apply (plain_string_of_uint (_ u)).
Qed.

Lemma escape_nat_toString (n : nat) : escape_nat n = nat_toString n.
Proof. apply escape_plain, plain_nat_toString. Qed.

(** ** Global replacement *)

Section Replace.

Variable token : string.
Hypothesis token_nonempty : token <> "".

Lemma length_token : exists n, String.length token = S n.
Proof.
  destruct token as [|c t]; [now elim token_nonempty | now exists (String.length t)].
Qed.

(** Putting the pieces together with the token itself gives the
    string back, from wherever the scan stands. *)
Lemma glue_split_from (skip : nat) (s : string) :
  glue token (split_from token skip s) = drop skip s.
Proof.
  revert skip; induction s as [|c s IH]; intros skip.
  - simpl. now rewrite drop_nil.
  - destruct skip as [|skip]; [|exact (IH skip)].
    cbn [split_from drop].
    destruct (prefix token (String c s)) eqn:Hp.
    + specialize (IH (String.length token - 1)).
      destruct (split_from token (String.length token - 1) s) as [p ps].
      unfold glue in *; cbn [fst snd glue_rest] in *.
      rewrite IH, (prefix_split _ _ Hp) at 1.
      destruct length_token as [n Hn]. rewrite Hn.
      simpl. now rewrite Nat.sub_0_r.
    + specialize (IH 0).
      destruct (split_from token 0 s) as [p ps].
      unfold glue in *; cbn [fst snd] in *. simpl. now rewrite IH.
Qed.

(** No piece holds an occurrence of the token: the scan misses none. *)
Lemma split_from_token_free (skip : nat) (s : string) :
  ~ occurs_in token (fst (split_from token skip s)) /\
  Forall (fun p => ~ occurs_in token p) (snd (split_from token skip s)).
Proof.
  revert skip; induction s as [|c s IH]; intros skip.
  - simpl. split; [|constructor].
    intros (a & b & E). destruct a; [|discriminate].
    destruct token; [now elim token_nonempty | discriminate].
  - destruct skip as [|skip]; [|exact (IH skip)].
    cbn [split_from].
    destruct (prefix token (String c s)) eqn:Hp.
    + destruct (IH (String.length token - 1)) as [H1 H2].
      destruct (split_from token (String.length token - 1) s) as [p ps].
      cbn [fst snd] in *. split.
      * intros (a & b & E). destruct a; [|discriminate].
        destruct token; [now elim token_nonempty | discriminate].
      * now constructor.
    + destruct (IH 0) as [H1 H2].
      pose proof (glue_split_from 0 s) as Hg.
      destruct (split_from token 0 s) as [p ps].
      unfold glue in Hg. cbn [fst snd drop] in *. split; [|exact H2].
      intros (a & b & E). destruct a as [|x a].
      * simpl in E.
        assert (Hs : String c s = token ++ b ++ glue_rest token ps).
        { rewrite <- Hg. change (String c (p ++ glue_rest token ps))
            with (String c p ++ glue_rest token ps).
          now rewrite E, append_assoc. }
        rewrite Hs, prefix_append in Hp. discriminate.
      * injection E as _ E. apply H1. now exists a, b.
Qed.

Lemma replace_from_ret (r : string) (skip : nat) (s : string) (n : nat) :
  replace_from token (ret r) skip s n =
  (Return (glue r (split_from token skip s)), n).
Proof.
  revert skip n; induction s as [|c s IH]; intros skip n; [reflexivity|].
  destruct skip as [|skip]; [|exact (IH skip n)].
  cbn [replace_from split_from].
  destruct (prefix token (String c s)).
  - unfold bind, ret at 1. rewrite IH.
    now destruct (split_from token (String.length token - 1) s).
  - unfold bind. rewrite IH.
    now destruct (split_from token 0 s).
Qed.

(** A replacer that calls a function which returns [d]: one call per
    match. *)
Lemma replace_from_call_Return (d : string) (skip : nat) (s : string)
  (n : nat) :
  replace_from token (call (Return d)) skip s n =
  (Return (glue d (split_from token skip s)),
   n + List.length (snd (split_from token skip s))).
Proof.
  revert skip n; induction s as [|c s IH]; intros skip n.
  - simpl. unfold ret. now rewrite Nat.add_0_r.
  - destruct skip as [|skip]; [|exact (IH skip n)].
    cbn [replace_from split_from].
    destruct (prefix token (String c s)).
    + unfold bind, call at 1. rewrite IH.
      destruct (split_from token (String.length token - 1) s).
      unfold ret, glue. cbn [fst snd glue_rest List.length].
      f_equal. lia.
    + unfold bind. rewrite IH.
      now destruct (split_from token 0 s).
Qed.

(** A replacer that calls a function which throws [e]: the first match
    ends the replacement; without a match nothing is called. *)
Lemma replace_from_call_Throw (e : exn) (skip : nat) (s : string)
  (n : nat) :
  replace_from token (call (Throw e)) skip s n =
  match snd (split_from token skip s) with
  | [] => (Return (fst (split_from token skip s)), n)
  | _ :: _ => (Throw e, S n)
  end.
Proof.
  revert skip n; induction s as [|c s IH]; intros skip n; [reflexivity|].
  destruct skip as [|skip]; [|exact (IH skip n)].
  cbn [replace_from split_from].
  destruct (prefix token (String c s)).
  - unfold bind, call at 1.
    now destruct (split_from token (String.length token - 1) s).
  - unfold bind. rewrite IH.
    destruct (split_from token 0 s) as [p [|q ps]]; reflexivity.
Qed.

End Replace.

(** ** The walk over the passages *)

Section PublisherFacts.

Context {number : Type} `{JSNumber number}.

Implicit Types (p : Passage.t number) (ps : list (Passage.t number)).
Implicit Types (story : Story.t number) (st : walk).

Lemma forEach_visit_passageData (startId : option string) ps index st :
  passageData (forEach (visit startId) ps index st) =
  passageData st ++ passageElements ps index.
Proof.
  revert index st; induction ps as [|p ps IH]; intros index st;
    cbn [forEach passageElements].
  - now rewrite append_nil_r.
  - rewrite IH. unfold visit; cbn [passageData]. apply append_assoc.
Qed.

(** Passage [k] receives the number [index + k + 1]. *)
Lemma passageElements_numbers ps index :
  passageElements ps index =
  String.concat ""
    (map (fun ip => publishPassage (snd ip) (fst ip))
       (combine (seq (index + 1) (List.length ps)) ps)).
Proof.
  revert index; induction ps as [|p ps IH]; intros index; [reflexivity|].
  cbn [passageElements List.length seq combine map].
  rewrite IH. replace (S index + 1) with (S (index + 1)) by lia.
  now rewrite concat_cons.
Qed.

Lemma forEach_visit_no_match (startId : option string) ps index st :
  (forall p, In p ps -> id_is startId p = false) ->
  startLocalId (forEach (visit startId) ps index st) = startLocalId st.
Proof.
  revert index st; induction ps as [|p ps IH]; intros index st Hno;
    [reflexivity|].
  cbn [forEach]. rewrite IH by (intros q Hq; apply Hno; now right).
  unfold visit; cbn [startLocalId]. now rewrite (Hno p (or_introl eq_refl)).
Qed.

(** The last passage that matches decides the start number. *)
Lemma forEach_visit_last_match (startId : option string) ps index st k p :
  nth_error ps k = Some p ->
  id_is startId p = true ->
  (forall j q, k < j -> nth_error ps j = Some q -> id_is startId q = false) ->
  startLocalId (forEach (visit startId) ps index st) = Some (index + k + 1).
Proof.
  revert index st k; induction ps as [|x ps IH]; intros index st k Hk Hp Hlast.
  - now destruct k.
  - destruct k as [|k]; cbn [forEach].
    + injection Hk as ->.
      rewrite forEach_visit_no_match.
      * unfold visit; cbn [startLocalId]. rewrite Hp. f_equal; lia.
      * intros q Hq. apply In_nth_error in Hq as [j Hj].
        apply (Hlast (S j) q); [lia | exact Hj].
    + rewrite (IH (S index) _ k); [f_equal; lia | exact Hk | exact Hp |].
      intros j q Hj Hq. apply (Hlast (S j) q); [lia | exact Hq].
Qed.

Lemma find_id_is_None (startId : option string) ps :
  find (id_is startId) ps = None <->
  (forall p, In p ps -> id_is startId p = false).
Proof.
  split.
  - intros Hf p Hp. exact (find_none _ _ Hf p Hp).
  - induction ps as [|x ps IH]; intros Hno; [reflexivity|].
    simpl. rewrite (Hno x (or_introl eq_refl)).
    apply IH. intros q Hq. apply Hno. now right.
Qed.

Lemma id_is_None p : id_is None p = false.
Proof. reflexivity. Qed.

(** ** The three outcomes of [publishStory] *)

Lemma publishStory_lenient appInfo story formatOptions startId :
  publishStory appInfo story formatOptions startId true =
  Return (storyMarkup appInfo story formatOptions
            (or_else startId (Story.startPassage story))).
Proof. reflexivity. Qed.

Lemma publishStory_strict appInfo story formatOptions startId :
  publishStory appInfo story formatOptions startId false =
  let effective := or_else startId (Story.startPassage story) in
  if negb (truthy effective) then Throw NoStartPoint
  else
    match find (id_is effective) (Story.passages story) with
    | None => Throw StartPointNotFound
    | Some _ => Return (storyMarkup appInfo story formatOptions effective)
    end.
Proof.
  unfold publishStory, storyMarkup. cbn [negb andb].
  destruct (negb (truthy _)); [reflexivity|].
  now destruct (find _ _).
Qed.

(** The content of the story element, part by part. *)
Lemma storyMarkup_parts appInfo story formatOptions startId :
  storyMarkup appInfo story formatOptions startId =
  storyOpenTag appInfo story formatOptions
    (startLocalId
       (forEach (visit startId) (Story.passages story) 0
          {| passageData := ""; startLocalId := None |})) ++
  styleElement story ++
  scriptElement story ++
  Array_toString (tagData story) ++
  passageElements (Story.passages story) 0 ++
  "</tw-storydata>".
Proof.
  unfold storyMarkup. cbv zeta. now rewrite forEach_visit_passageData.
Qed.

End PublisherFacts.

(** ** The two passes of [publishStoryWithFormat] *)

Section FormatFacts.

Context {number : Type} `{JSNumber number}.

Lemma STORY_NAME_nonempty : STORY_NAME <> "".
Proof. discriminate. Qed.

Lemma STORY_DATA_nonempty : STORY_DATA <> "".
Proof. discriminate. Qed.

Lemma pieces_no_match (token s : string) :
  token <> "" -> snd (pieces token s) = [] -> fst (pieces token s) = s.
Proof.
  intros Ht Hs. pose proof (glue_split_from token Ht 0 s) as Hg.
  unfold glue in Hg. fold (pieces token s) in Hg. rewrite Hs in Hg.
  simpl in Hg. now rewrite append_nil_r in Hg.
Qed.

(** With a usable template, the result and the number of
    [publishStory] calls are those of two successive global
    replacements. *)
Lemma publishStoryWithFormat_run (appInfo : AppInfo.t)
  (story : Story.t number) (format : Format.t)
  (formatOptions startId : option string)
  (properties : Format.props) (source : string) :
  Format.properties format = Some properties ->
  Format.source properties = Some source ->
  source <> "" ->
  run (publishStoryWithFormat appInfo story format formatOptions startId) =
  let named := replaceAll STORY_NAME (escape (Story.name story)) source in
  match publishStory appInfo story formatOptions startId false with
  | Return data =>
      (Return (replaceAll STORY_DATA data named),
       occurrences STORY_DATA named)
  | Throw e =>
      match occurrences STORY_DATA named with
      | O => (Return named, 0)
      | S _ => (Throw e, 1)
      end
  end.
Proof.
  intros Hp Hs Hne. unfold run, publishStoryWithFormat.
  rewrite Hp, Hs. apply eqb_neq in Hne. rewrite Hne.
  unfold bind, String_replace. rewrite replace_from_ret.
  fold (pieces "{{STORY_NAME}}" source).
  change (glue (escape (Story.name story)) (pieces "{{STORY_NAME}}" source))
    with (replaceAll STORY_NAME (escape (Story.name story)) source).
  cbv zeta.
  set (named := replaceAll STORY_NAME (escape (Story.name story)) source).
  destruct (publishStory appInfo story formatOptions startId false)
    as [data|e].
  - rewrite replace_from_call_Return. reflexivity.
  - rewrite replace_from_call_Throw. unfold occurrences.
    fold (pieces "{{STORY_DATA}}" named).
    change "{{STORY_DATA}}" with STORY_DATA.
    destruct (snd (pieces STORY_DATA named)) eqn:E; [|reflexivity].
    now rewrite (pieces_no_match _ _ STORY_DATA_nonempty E).
Qed.

(** Without a usable template nothing is published. *)
Lemma publishStoryWithFormat_no_source (appInfo : AppInfo.t)
  (story : Story.t number) (format : Format.t)
  (formatOptions startId : option string) :
  match Format.properties format with
  | None => True
  | Some properties => truthy (Format.source properties) = false
  end ->
  run (publishStoryWithFormat appInfo story format formatOptions startId) =
  (Throw MissingTemplateSource, 0).
Proof.
  unfold run, publishStoryWithFormat.
  destruct (Format.properties format) as [properties|]; [|reflexivity].
  destruct (Format.source properties) as [source|]; [|reflexivity].
  simpl. destruct (source =? ""); [reflexivity | discriminate].
Qed.

End FormatFacts.

(** ** A concrete number type

    Integers printed in decimal are numbers in the sense of [JSNumber];
    the examples below use them. *)

Definition Z_toString (z : Z) : string :=
  NilZero.string_of_int (Z.to_int z).

Lemma Z_toString_plain (z : Z) : plain (Z_toString z) = true.
Proof.
  unfold Z_toString, NilZero.string_of_int.
  destruct (Z.to_int z) as [d|d]; unfold NilZero.string_of_uint.
  - destruct d; try reflexivity; apply (plain_string_of_uint (_ d)).
  - change (plain (NilZero.string_of_uint d) = true).
    destruct d; try reflexivity; apply (plain_string_of_uint (_ d)).
Qed.

#[export] Instance Z_JSNumber : JSNumber Z := {|
  Number_toString := Z_toString;
  isNegativeZero := fun _ => false;
  Number_toString_plain := Z_toString_plain
|}.

Module Sample.

Definition twine : AppInfo.t := AppInfo.Build "Twine" "2.4".

Definition first : Passage.t Z :=
  Passage.Build "a" "One <b>" ["x"; "y"] 10%Z 20%Z 100%Z 100%Z
    "He said $1 & left".

Definition second : Passage.t Z :=
  Passage.Build "b" "Two" [] (-3)%Z 0%Z 100%Z 100%Z "".

(** A passage whose identifier is the empty string. *)
Definition anonymous : Passage.t Z :=
  Passage.Build "" "Zero" [] 0%Z 0%Z 100%Z 100%Z "".

Definition story (name : string) (tagColors : list (string * string))
  (startPassage : option string) (passages : list (Passage.t Z))
  : Story.t Z :=
  Story.Build name "IFID" 1%Z "Harlowe" "3.0" "" ""
    tagColors startPassage passages.

Definition format (source : string) : Format.t :=
  Format.Build (Some (Format.BuildProps (Some source))).

End Sample.

(** Two passages, the first with the empty string as identifier; the
    story declares the second as its start. *)
Definition story_declaring_b : Story.t Z :=
  Sample.story "S" [] (Some "b") [Sample.anonymous; Sample.second].

(** A passage with a backtick in its name, in a tag and in its text. *)
Definition passage_with_backtick : Passage.t Z :=
  Passage.Build "c" "a`b" ["t`"; "u"] 1%Z 2%Z 3%Z 4%Z "x`<y>".

(** One passage and no declared start. *)
Definition story_without_start : Story.t Z :=
  Sample.story "S" [] None [Sample.first].


(** The example of the specification: the name [A&B], a passage text
    with [$1], the template [before {{STORY_NAME}} mid {{STORY_DATA}}
    after]. *)
Definition story_A_and_B : Story.t Z :=
  Sample.story "A&B" [] (Some "a") [Sample.first].

Definition format_before_mid_after : Format.t :=
  Sample.format "before {{STORY_NAME}} mid {{STORY_DATA}} after".

(** A story named after the data placeholder. *)
Definition story_named_placeholder : Story.t Z :=
  Sample.story "{{STORY_DATA}}" [] (Some "b") [Sample.second].

(** Two tag colours. *)
Definition story_two_tags : Story.t Z :=
  Sample.story "S" [("red", "#f00"); ("blue", "#00f")] None [Sample.first].

(** * Properties of the published markup *)

(** ** Passages *)

(** C7. [publishPassage p n] is the passage element with the attributes
    [pid] (the number [n] in decimal), [name], [tags] (the tags joined by
    one space), [position] ([left,top]) and [size] ([width,height]) and
    with the text as content; every attribute value and the content are
    in escaped form; the result depends on the passage and the number
    only. *)
Theorem publishPassage_markup {number : Type} `{JSNumber number}
  (p : Passage.t number) (n : nat) :
  let position :=
    Number_toString (Passage.left p) ++ "," ++
    Number_toString (Passage.top p) in
  let size :=
    Number_toString (Passage.width p) ++ "," ++
    Number_toString (Passage.height p) in
  publishPassage p n =
    "<tw-passagedata " ++ attr "pid" (nat_toString n) ++ " " ++
    attr "name" (escape (Passage.name p)) ++ " " ++
    attr "tags" (escape (Array_join " " (Passage.tags p))) ++ " " ++
    attr "position" position ++ " " ++
    attr "size" size ++ ">" ++
    escape (Passage.text p) ++ "</tw-passagedata>" /\
  (Array_join " " [] = "" /\
   (forall t, Array_join " " [t] = t) /\
   (forall t t' ts,
       Array_join " " (t :: t' :: ts) = t ++ " " ++ Array_join " " (t' :: ts))) /\
  (escaped_form (nat_toString n) = true /\
   escaped_form (escape (Passage.name p)) = true /\
   escaped_form (escape (Array_join " " (Passage.tags p))) = true /\
   escaped_form position = true /\
   escaped_form size = true /\
   escaped_form (escape (Passage.text p)) = true) /\
  (forall p' n', p' = p -> n' = n -> publishPassage p' n' = publishPassage p n).
Proof.
  cbv zeta. split; [|split; [|split]].
  - unfold publishPassage. now rewrite escape_nat_toString.
  - repeat split.
  - repeat split; try apply escaped_form_escape.
    + apply plain_escaped_form, plain_nat_toString.
    + apply plain_escaped_form.
      now rewrite !plain_append, !Number_toString_plain.
    + apply plain_escaped_form.
      now rewrite !plain_append, !Number_toString_plain.
  - now intros p' n' -> ->.
Qed.

(** The passage element of a sample passage; its backticks come out as
    entities. *)
Lemma publishPassage_markup_witness :
  publishPassage passage_with_backtick 7 =
    "<tw-passagedata pid=" ++ dquote ++ "7" ++ dquote ++
    " name=" ++ dquote ++ "a&#96;b" ++ dquote ++
    " tags=" ++ dquote ++ "t&#96; u" ++ dquote ++
    " position=" ++ dquote ++ "1,2" ++ dquote ++
    " size=" ++ dquote ++ "3,4" ++ dquote ++
    ">x&#96;&lt;y&gt;</tw-passagedata>".
Proof.
  rewrite (proj1 (publishPassage_markup passage_with_backtick 7)).
  reflexivity.
Defined.

(** ** Escaping of names and texts *)

Section Provenance.

Context {number : Type} `{JSNumber number}.

Implicit Types (p : Passage.t number) (ps : list (Passage.t number)).
Implicit Types (story : Story.t number).

Lemma publishPassage_retitle p (n : nat) (name text : string) :
  publishPassage (retitle name text p) n =
  ("<tw-passagedata " ++ attr "pid" (escape_nat n) ++ " name=" ++ dquote) ++
  escape name ++
  (dquote ++ " " ++
   attr "tags" (escape (Array_join " " (Passage.tags p))) ++ " " ++
   attr "position"
     (Number_toString (Passage.left p) ++ "," ++
      Number_toString (Passage.top p)) ++ " " ++
   attr "size"
     (Number_toString (Passage.width p) ++ "," ++
      Number_toString (Passage.height p)) ++ ">") ++
  escape text ++ "</tw-passagedata>".
Proof.
  unfold publishPassage, retitle, attr; cbn [Passage.name Passage.text
    Passage.tags Passage.left Passage.top Passage.width Passage.height].
  repeat rewrite append_assoc. reflexivity.
Qed.

(** The start number and the presence of a match depend on the
    identifiers of the passages only. *)
Lemma startLocalId_same_ids (startId : option string) ps ps' index
  (st st' : walk) :
  map Passage.id ps' = map Passage.id ps ->
  startLocalId st' = startLocalId st ->
  startLocalId (forEach (visit startId) ps' index st') =
  startLocalId (forEach (visit startId) ps index st).
Proof.
  revert ps' index st st'; induction ps as [|p ps IH];
    intros [|p' ps'] index st st' Hids Hst; try discriminate;
    [exact Hst|].
  injection Hids as Hid Hids. cbn [forEach]. apply IH; [exact Hids|].
  unfold visit, id_is; cbn [startLocalId]. now rewrite Hid, Hst.
Qed.

Lemma find_same_ids (startId : option string) ps ps' :
  map Passage.id ps' = map Passage.id ps ->
  find (id_is startId) ps = None ->
  find (id_is startId) ps' = None.
Proof.
  revert ps'; induction ps as [|p ps IH]; intros [|p' ps'] Hids;
    try discriminate; [easy|].
  injection Hids as Hid Hids. cbn [find].
  replace (id_is startId p') with (id_is startId p)
    by (unfold id_is; now rewrite Hid).
  destruct (id_is startId p); [discriminate | now apply IH].
Qed.

Lemma storyMarkup_rename (appInfo : AppInfo.t) story
  (formatOptions startId : option string) (name : string) :
  storyMarkup appInfo (rename name story) formatOptions startId =
  ("<tw-storydata name=" ++ dquote) ++ escape name ++
  afterName appInfo story formatOptions startId.
Proof.
  unfold storyMarkup, afterName, storyOpenTag, attr. cbv zeta.
  cbn [rename Story.name Story.passages].
  repeat rewrite append_assoc. reflexivity.
Qed.

End Provenance.

(** C4. Passage names, passage texts and story names reach the output
    of [publishPassage] and [publishStory] through [escape] only, and
    what [escape] returns has no [<], [>], double quote, single quote
    or backtick and no [&] other than the first character of an entity.
    Whatever the name and the text are, the rest of the output is the
    same. *)
Theorem escaped_name_and_text {number : Type} `{JSNumber number} :
  (forall s : string, escaped_form (escape s) = true) /\
  (forall (p : Passage.t number) (n : nat),
      exists before between after : string,
        forall name text : string,
          publishPassage (retitle name text p) n =
          before ++ escape name ++ between ++ escape text ++ after) /\
  (forall (appInfo : AppInfo.t) (story : Story.t number)
          (formatOptions startId : option string) (startOptional : bool),
      (exists e, forall name : string,
          publishStory appInfo (rename name story) formatOptions startId
            startOptional = Throw e) \/
      (exists before after : string, forall name : string,
          publishStory appInfo (rename name story) formatOptions startId
            startOptional = Return (before ++ escape name ++ after))) /\
  (forall (appInfo : AppInfo.t) (story : Story.t number)
          (formatOptions startId : option string) (startOptional : bool),
      (exists e, forall ps' : list (Passage.t number),
          map Passage.id ps' = map Passage.id (Story.passages story) ->
          publishStory appInfo (with_passages ps' story) formatOptions startId
            startOptional = Throw e) \/
      (exists before : string, forall ps' : list (Passage.t number),
          map Passage.id ps' = map Passage.id (Story.passages story) ->
          publishStory appInfo (with_passages ps' story) formatOptions startId
            startOptional =
          Return (before ++ passageElements ps' 0 ++ "</tw-storydata>"))).
Proof.
  split; [exact escaped_form_escape|]. split; [|split].
  - intros p n. eexists _, _, _. intros name text.
    apply publishPassage_retitle.
  - intros appInfo story formatOptions startId startOptional.
    set (effective := or_else startId (Story.startPassage story)).
    assert (Hret : forall name,
               storyMarkup appInfo (rename name story) formatOptions effective =
               ("<tw-storydata name=" ++ dquote) ++ escape name ++
               afterName appInfo story formatOptions effective)
      by (intros name; apply storyMarkup_rename).
    destruct startOptional.
    + right. eexists _, _. intros name.
      rewrite publishStory_lenient. f_equal. apply Hret.
    + destruct (truthy effective) eqn:Ht.
      * destruct (find (id_is effective) (Story.passages story)) eqn:Hf.
        -- right. eexists _, _. intros name.
           rewrite publishStory_strict. cbv zeta.
           cbn [rename Story.startPassage Story.passages].
           fold effective. rewrite Ht, Hf. cbn [negb]. f_equal. apply Hret.
        -- left. exists StartPointNotFound. intros name.
           rewrite publishStory_strict. cbv zeta.
           cbn [rename Story.startPassage Story.passages].
           fold effective. now rewrite Ht, Hf.
      * left. exists NoStartPoint. intros name.
        rewrite publishStory_strict. cbv zeta.
        cbn [rename Story.startPassage Story.passages].
        fold effective. now rewrite Ht.
  - intros appInfo story formatOptions startId startOptional.
    set (effective := or_else startId (Story.startPassage story)).
    set (st0 := {| passageData := ""; startLocalId := None |}).
    set (before :=
           storyOpenTag appInfo story formatOptions
             (startLocalId
                (forEach (visit effective) (Story.passages story) 0 st0)) ++
           styleElement story ++ scriptElement story ++
           Array_toString (tagData story)).
    assert (Hret : forall ps',
               map Passage.id ps' = map Passage.id (Story.passages story) ->
               storyMarkup appInfo (with_passages ps' story) formatOptions
                 effective =
               before ++ passageElements ps' 0 ++ "</tw-storydata>").
    { intros ps' Hids. rewrite storyMarkup_parts.
      cbn [with_passages Story.passages]. fold st0.
      rewrite (startLocalId_same_ids effective (Story.passages story) ps'
                 0 st0 st0 Hids eq_refl).
      unfold before. repeat rewrite append_assoc. reflexivity. }
    destruct startOptional.
    + right. exists before. intros ps' Hids.
      rewrite publishStory_lenient. f_equal. now apply Hret.
    + destruct (truthy effective) eqn:Ht.
      * destruct (find (id_is effective) (Story.passages story)) eqn:Hf.
        -- right. exists before. intros ps' Hids.
           rewrite publishStory_strict. cbv zeta.
           cbn [with_passages Story.startPassage Story.passages].
           fold effective. rewrite Ht. cbn [negb].
           destruct (find (id_is effective) ps') eqn:Hf'.
           ++ f_equal. now apply Hret.
           ++ apply (find_same_ids effective ps' (Story.passages story))
                in Hf'; [congruence | now symmetry].
        -- left. exists StartPointNotFound. intros ps' Hids.
           rewrite publishStory_strict. cbv zeta.
           cbn [with_passages Story.startPassage Story.passages].
           fold effective. rewrite Ht. cbn [negb].
           now rewrite (find_same_ids effective _ ps' Hids Hf).
      * left. exists NoStartPoint. intros ps' Hids.
        rewrite publishStory_strict. cbv zeta.
        cbn [with_passages Story.startPassage Story.passages].
        fold effective. now rewrite Ht.
Qed.

(** A text made of the characters that [escape] rewrites, escaped. *)
Lemma escaped_name_and_text_witness :
  escaped_form (escape ("<>&" ++ dquote ++ "'`")) = true /\
  escape ("<>&" ++ dquote ++ "'`") = "&lt;&gt;&amp;&quot;&#39;&#96;".
Proof.
  split.
  - apply (proj1 (escaped_name_and_text (number := Z))).
  - reflexivity.
Defined.

(** ** Archives *)

Lemma reduce_publish {number : Type} `{JSNumber number}
  (appInfo : AppInfo.t) (stories : list (Story.t number)) (output : string) :
  reduce
    (fun output story =>
       match publishStory appInfo story None None true with
       | Return published =>
           Return ((output ++ published) ++ newline ++ newline)
       | Throw e => Throw e
       end)
    stories output =
  Return
    (output ++
     String.concat ""
       (map
          (fun story =>
             returned (publishStory appInfo story None None true) ++
             newline ++ newline)
          stories)).
Proof.
  revert output; induction stories as [|story stories IH]; intros output.
  - simpl. now rewrite append_nil_r.
  - cbn [reduce map]. rewrite publishStory_lenient, IH.
    cbn [returned]. rewrite concat_cons, !append_assoc. reflexivity.
Qed.

(** C6. [publishArchive] of no story is the empty string; in general it
    is the concatenation, in list order, of what [publishStory] returns
    for each story in lenient mode (no format options, no start
    identifier, [startOptional] true), each followed by two line feeds,
    and nothing around it; that call of [publishStory] always returns.
    For one story it is that story's lenient output and two line
    feeds. *)
Theorem publishArchive_concatenates {number : Type} `{JSNumber number}
  (appInfo : AppInfo.t) :
  publishArchive [] appInfo = Return "" /\
  (forall story : Story.t number,
      exists published : string,
        publishStory appInfo story None None true = Return published) /\
  (forall stories : list (Story.t number),
      publishArchive stories appInfo =
      Return
        (String.concat ""
           (map
              (fun story =>
                 returned (publishStory appInfo story None None true) ++
                 newline ++ newline)
              stories))) /\
  (forall (story : Story.t number) (published : string),
      publishStory appInfo story None None true = Return published ->
      publishArchive [story] appInfo =
      Return (published ++ newline ++ newline)).
Proof.
  split; [reflexivity|]. split; [|split].
  - intros story. eexists. apply publishStory_lenient.
  - intros stories. unfold publishArchive. now rewrite reduce_publish.
  - intros story published Hp. unfold publishArchive.
    rewrite reduce_publish. cbn [map String.concat]. now rewrite Hp.
Qed.

(** An archive of two sample stories. *)
Lemma publishArchive_concatenates_witness :
  publishArchive
    [Sample.story "A" [] None []; Sample.story "B" [] None []]
    Sample.twine =
  Return
    (returned
       (publishStory Sample.twine (Sample.story "A" [] None []) None None
          true) ++ newline ++ newline ++
     returned
       (publishStory Sample.twine (Sample.story "B" [] None []) None None
          true) ++ newline ++ newline).
Proof.
  rewrite (proj1 (proj2 (proj2 (publishArchive_concatenates Sample.twine)))).
  reflexivity.
Defined.

(** ** The start passage *)

Section StartFacts.

Context {number : Type} `{JSNumber number}.

Lemma id_is_true (startId : option string) (p : Passage.t number) :
  id_is startId p = true <-> startId = Some (Passage.id p).
Proof.
  destruct startId as [s|]; simpl; [|easy].
  rewrite eqb_eq. split; [now intros -> | now intros [= ->]].
Qed.

Lemma id_is_false (startId : option string) (p : Passage.t number) :
  id_is startId p = false <-> startId <> Some (Passage.id p).
Proof.
  rewrite <- id_is_true. now destruct (id_is startId p).
Qed.


Lemma or_else_falsy (startId declared : option string) :
  truthy startId = false -> or_else startId declared = declared.
Proof. intros Hs. unfold or_else. now rewrite Hs. Qed.

Lemma truthy_or_else (startId declared : option string) :
  truthy (or_else startId declared) = truthy startId || truthy declared.
Proof. unfold or_else. now destruct (truthy startId) eqn:E. Qed.

Lemma startnode_succ (k : nat) : startnode (Some (k + 1)) = nat_toString (k + 1).
Proof. now rewrite Nat.add_1_r. Qed.


End StartFacts.




(** C2. Whenever [publishStory] returns, the passages appear in
    collection order numbered 1 to N, and the [startnode] attribute is
    the number of the passage whose identifier is the effective start
    identifier (the last such passage, should several share it), or
    empty when no passage has it. In lenient mode the call always
    returns; in strict mode it throws when no passage has the effective
    start identifier and returns when one has it and the identifier is
    not empty. *)
Theorem local_ids_and_startnode {number : Type} `{JSNumber number}
  (appInfo : AppInfo.t) (story : Story.t number)
  (formatOptions startId : option string) :
  let ps := Story.passages story in
  let effective := or_else startId (Story.startPassage story) in
  let none_matches :=
    forall p, In p ps -> effective <> Some (Passage.id p) in
  (forall (startOptional : bool) (out : string),
      publishStory appInfo story formatOptions startId startOptional =
        Return out ->
      exists startLocalId : option nat,
        out =
          "<tw-storydata " ++ attr "name" (escape (Story.name story)) ++ " " ++
          attr "startnode" (startnode startLocalId) ++ " " ++
          attr "creator" (escape (AppInfo.name appInfo)) ++ " " ++
          attr "creator-version" (escape (AppInfo.version appInfo)) ++ " " ++
          attr "ifid" (escape (Story.ifid story)) ++ " " ++
          attr "zoom" (escape_number (Story.zoom story)) ++ " " ++
          attr "format" (escape (Story.storyFormat story)) ++ " " ++
          attr "format-version" (escape (Story.storyFormatVersion story)) ++
          " " ++
          attr "options" (escape_nullable formatOptions) ++ " hidden>" ++
          styleElement story ++ scriptElement story ++
          Array_toString (tagData story) ++
          String.concat ""
            (map (fun ip => publishPassage (snd ip) (fst ip))
               (combine (seq 1 (List.length ps)) ps)) ++
          "</tw-storydata>" /\
        (forall k p,
            nth_error ps k = Some p ->
            effective = Some (Passage.id p) ->
            (forall j q, k < j -> nth_error ps j = Some q ->
                         effective <> Some (Passage.id q)) ->
            startLocalId = Some (k + 1) /\
            startnode startLocalId = nat_toString (k + 1)) /\
        (none_matches ->
         startLocalId = None /\ startnode startLocalId = "")) /\
  (exists out : string,
      publishStory appInfo story formatOptions startId true = Return out) /\
  (none_matches ->
   exists e : exn,
     publishStory appInfo story formatOptions startId false = Throw e) /\
  (truthy effective = true ->
   (exists p, In p ps /\ effective = Some (Passage.id p)) ->
   exists out : string,
     publishStory appInfo story formatOptions startId false = Return out).
Proof.
  cbv zeta.
  set (ps := Story.passages story).
  set (effective := or_else startId (Story.startPassage story)).
  assert (Hno : (forall p, In p ps -> effective <> Some (Passage.id p)) ->
                find (id_is effective) ps = None).
  { intros Hn. apply find_id_is_None. intros p Hp.
    apply id_is_false. now apply Hn. }
  split; [|split; [|split]].
  - intros startOptional out Hout.
    assert (Hm : out = storyMarkup appInfo story formatOptions effective).
    { destruct startOptional.
      - rewrite publishStory_lenient in Hout. now injection Hout as <-.
      - rewrite publishStory_strict in Hout. cbv zeta in Hout.
        fold effective ps in Hout.
        destruct (negb (truthy effective)); [discriminate|].
        destruct (find (id_is effective) ps); [|discriminate].
        now injection Hout as <-. }
    subst out. rewrite storyMarkup_parts, passageElements_numbers.
    fold ps.
    exists (startLocalId
              (forEach (visit effective) ps 0
                 {| passageData := ""; startLocalId := None |})).
    split; [|split].
    + unfold storyOpenTag. repeat rewrite append_assoc. reflexivity.
    + intros k p Hk Hp Hlast.
      rewrite (forEach_visit_last_match effective ps 0 _ k p Hk).
      * split; [reflexivity | apply startnode_succ].
      * now apply id_is_true.
      * intros j q Hj Hq. apply id_is_false. now apply (Hlast j q).
    + intros Hn. rewrite forEach_visit_no_match; [now split|].
      intros p Hp. apply id_is_false. now apply Hn.
  - eexists. apply publishStory_lenient.
  - intros Hn. rewrite publishStory_strict. cbv zeta. fold effective ps.
    rewrite (Hno Hn). destruct (negb (truthy effective)); eauto.
  - intros Ht (p & Hp & Hid). rewrite publishStory_strict. cbv zeta.
    fold effective ps. rewrite Ht. cbn [negb].
    destruct (find (id_is effective) ps) eqn:Hf; [eauto|].
    apply find_id_is_None with (p := p) in Hf; [|exact Hp].
    apply id_is_false in Hf. contradiction.
Qed.

(** The declared start ["b"] is the second passage: start node 2. *)
Lemma local_ids_and_startnode_witness :
  exists out : string,
    publishStory Sample.twine story_declaring_b None None false = Return out.
Proof.
  apply (proj2 (proj2 (proj2
           (local_ids_and_startnode Sample.twine story_declaring_b
              None None)))).
  - reflexivity.
  - exists Sample.second. split; [right; left; reflexivity | reflexivity].
Defined.

(** C3. In strict mode [publishStory] throws NoStartPoint exactly when
    no start identifier resolves, that is when the effective start
    identifier is absent or empty, and throws StartPointNotFound exactly
    when a start identifier resolves and no passage has it; nothing is
    returned in either case. In lenient mode the call always returns,
    both validations being skipped. Passage identifiers are UUIDs, hence
    never the empty string: for such a story, whenever strict mode
    throws, lenient mode returns the story element with an empty
    [startnode] attribute. *)
Theorem start_validation {number : Type} `{JSNumber number}
  (appInfo : AppInfo.t) (story : Story.t number)
  (formatOptions startId : option string) :
  let ps := Story.passages story in
  let effective := or_else startId (Story.startPassage story) in
  let none_matches :=
    forall p, In p ps -> effective <> Some (Passage.id p) in
  (publishStory appInfo story formatOptions startId false =
     Throw NoStartPoint <->
   truthy effective = false) /\
  (publishStory appInfo story formatOptions startId false =
     Throw StartPointNotFound <->
   truthy effective = true /\ none_matches) /\
  (exists out : string,
      publishStory appInfo story formatOptions startId true = Return out) /\
  ((forall p, In p ps -> Passage.id p <> "") ->
   forall e : exn,
     publishStory appInfo story formatOptions startId false = Throw e ->
     publishStory appInfo story formatOptions startId true =
       Return
         ("<tw-storydata " ++ attr "name" (escape (Story.name story)) ++ " " ++
          attr "startnode" "" ++ " " ++
          attr "creator" (escape (AppInfo.name appInfo)) ++ " " ++
          attr "creator-version" (escape (AppInfo.version appInfo)) ++ " " ++
          attr "ifid" (escape (Story.ifid story)) ++ " " ++
          attr "zoom" (escape_number (Story.zoom story)) ++ " " ++
          attr "format" (escape (Story.storyFormat story)) ++ " " ++
          attr "format-version" (escape (Story.storyFormatVersion story)) ++
          " " ++
          attr "options" (escape_nullable formatOptions) ++ " hidden>" ++
          styleElement story ++ scriptElement story ++
          Array_toString (tagData story) ++
          passageElements ps 0 ++
          "</tw-storydata>")).
Proof.
  cbv zeta.
  set (ps := Story.passages story).
  set (effective := or_else startId (Story.startPassage story)).
  assert (Hfind : find (id_is effective) ps = None <->
                  (forall p, In p ps -> effective <> Some (Passage.id p))).
  { rewrite find_id_is_None. split; intros Hn p Hp.
    - apply id_is_false. now apply Hn.
    - apply id_is_false. now apply Hn. }
  assert (Hstrict :
            publishStory appInfo story formatOptions startId false =
            if negb (truthy effective) then Throw NoStartPoint
            else
              match find (id_is effective) ps with
              | None => Throw StartPointNotFound
              | Some _ =>
                  Return (storyMarkup appInfo story formatOptions effective)
              end)
    by apply publishStory_strict.
  split; [|split; [|split]].
  - rewrite Hstrict. destruct (truthy effective); cbn [negb].
    + split; [|discriminate].
      destruct (find (id_is effective) ps); discriminate.
    + now split.
  - rewrite Hstrict. destruct (truthy effective); cbn [negb].
    + destruct (find (id_is effective) ps) eqn:Hf.
      * split; [discriminate|]. intros [_ Hn]. apply Hfind in Hn.
        discriminate.
      * split; [|reflexivity]. intros _. split; [reflexivity|].
        now apply Hfind.
    + split; [discriminate | now intros [? _]].
  - eexists. apply publishStory_lenient.
  - intros Hids e He.
    assert (Hn : forall p, In p ps -> id_is effective p = false).
    { rewrite Hstrict in He.
      destruct (truthy effective) eqn:Ht; cbn [negb] in He.
      - destruct (find (id_is effective) ps) eqn:Hf; [discriminate|].
        now apply find_id_is_None.
      - intros p Hp. apply id_is_false. intros E. rewrite E in Ht.
        simpl in Ht. apply negb_false_iff, eqb_eq in Ht.
        now apply (Hids p Hp). }
    rewrite publishStory_lenient, storyMarkup_parts. fold effective ps.
    rewrite (forEach_visit_no_match effective ps 0 _ Hn).
    cbn [startLocalId]. unfold storyOpenTag. cbn [startnode].
    repeat rewrite append_assoc. reflexivity.
Qed.

(** A story with one passage and no start: strict mode throws
    NoStartPoint, lenient mode returns an empty [startnode]. *)
Lemma start_validation_witness :
  publishStory Sample.twine story_without_start None None true =
  Return
    ("<tw-storydata " ++
     attr "name" (escape (Story.name story_without_start)) ++ " " ++
     attr "startnode" "" ++ " " ++
     attr "creator" (escape (AppInfo.name Sample.twine)) ++ " " ++
     attr "creator-version" (escape (AppInfo.version Sample.twine)) ++ " " ++
     attr "ifid" (escape (Story.ifid story_without_start)) ++ " " ++
     attr "zoom" (escape_number (Story.zoom story_without_start)) ++ " " ++
     attr "format" (escape (Story.storyFormat story_without_start)) ++ " " ++
     attr "format-version"
       (escape (Story.storyFormatVersion story_without_start)) ++
     " " ++
     attr "options" (escape_nullable None) ++ " hidden>" ++
     styleElement story_without_start ++ scriptElement story_without_start ++
     Array_toString (tagData story_without_start) ++
     passageElements (Story.passages story_without_start) 0 ++
     "</tw-storydata>").
Proof.
  apply (proj2 (proj2 (proj2
           (start_validation Sample.twine story_without_start None None))))
    with (e := NoStartPoint).
  - intros p [<- | []]. discriminate.
  - reflexivity.
Defined.

(** ** Binding a story into a format *)

Lemma pieces_spec (token s : string) :
  token <> "" ->
  exists (p : string) (ps : list string),
    pieces token s = (p, ps) /\
    s = glue token (p, ps) /\
    ~ occurs_in token p /\
    Forall (fun q => ~ occurs_in token q) ps.
Proof.
  intros Ht. unfold pieces.
  pose proof (glue_split_from token Ht 0 s) as Hg.
  pose proof (split_from_token_free token Ht 0 s) as [H1 H2].
  destruct (split_from token 0 s) as [p ps].
  exists p, ps. repeat split; [now symmetry | exact H1 | exact H2].
Qed.

Lemma publishStory_throws {number : Type} `{JSNumber number}
  (appInfo : AppInfo.t) (story : Story.t number)
  (formatOptions startId : option string) (startOptional : bool) (e : exn) :
  publishStory appInfo story formatOptions startId startOptional = Throw e ->
  e = NoStartPoint \/ e = StartPointNotFound.
Proof.
  destruct startOptional.
  - now rewrite publishStory_lenient.
  - rewrite publishStory_strict. cbv zeta.
    destruct (negb (truthy _)); [intros [= <-]; now left|].
    destruct (find _ _); [discriminate | intros [= <-]; now right].
Qed.

(** C5. With a usable template and a story that [publishStory]
    serializes to [data], the template is cut at every [STORY_NAME]
    token and put together again with the escaped story name in place of
    the tokens; the result is cut at every [STORY_DATA] token and put
    together again with [data] in place of the tokens. Both values are
    inserted as they are, whatever characters they hold, and no piece
    between two replaced tokens holds a token that was left alone. *)
Theorem placeholders_replaced_literally {number : Type} `{JSNumber number}
  (appInfo : AppInfo.t) (story : Story.t number) (format : Format.t)
  (formatOptions startId : option string)
  (properties : Format.props) (source data : string) :
  Format.properties format = Some properties ->
  Format.source properties = Some source ->
  source <> "" ->
  publishStory appInfo story formatOptions startId false = Return data ->
  exists (p : string) (ps : list string) (q : string) (qs : list string),
    source = glue STORY_NAME (p, ps) /\
    ~ occurs_in STORY_NAME p /\
    Forall (fun piece => ~ occurs_in STORY_NAME piece) ps /\
    glue (escape (Story.name story)) (p, ps) = glue STORY_DATA (q, qs) /\
    ~ occurs_in STORY_DATA q /\
    Forall (fun piece => ~ occurs_in STORY_DATA piece) qs /\
    fst (run (publishStoryWithFormat appInfo story format formatOptions
                startId)) =
      Return (glue data (q, qs)).
Proof.
  intros Hp Hs Hne Hdata.
  rewrite (publishStoryWithFormat_run _ _ _ _ _ _ _ Hp Hs Hne), Hdata.
  cbv zeta. unfold replaceAll.
  destruct (pieces_spec STORY_NAME source STORY_NAME_nonempty)
    as (p & ps & -> & Hsrc & Hp1 & Hp2).
  destruct (pieces_spec STORY_DATA (glue (escape (Story.name story)) (p, ps))
              STORY_DATA_nonempty)
    as (q & qs & -> & Hnamed & Hq1 & Hq2).
  exists p, ps, q, qs. cbn [fst]. repeat split; assumption.
Qed.

Lemma placeholders_replaced_literally_witness :
  exists (p : string) (ps : list string) (q : string) (qs : list string),
    "before {{STORY_NAME}} mid {{STORY_DATA}} after" =
      glue STORY_NAME (p, ps) /\
    ~ occurs_in STORY_NAME p /\
    Forall (fun piece => ~ occurs_in STORY_NAME piece) ps /\
    glue (escape "A&B") (p, ps) = glue STORY_DATA (q, qs) /\
    ~ occurs_in STORY_DATA q /\
    Forall (fun piece => ~ occurs_in STORY_DATA piece) qs /\
    fst (run (publishStoryWithFormat Sample.twine story_A_and_B
                format_before_mid_after None None)) =
      Return
        (glue (storyMarkup Sample.twine story_A_and_B None (Some "a"))
           (q, qs)).
Proof.
  apply (placeholders_replaced_literally Sample.twine story_A_and_B
           format_before_mid_after None None
           (Format.BuildProps
              (Some "before {{STORY_NAME}} mid {{STORY_DATA}} after"))).
  - reflexivity.
  - reflexivity.
  - discriminate.
  - reflexivity.
Defined.

(** The same example, evaluated: the text [$1] stands in the output as
    it was written. *)
Example format_binding_example :
  run (publishStoryWithFormat Sample.twine story_A_and_B
         format_before_mid_after None None) =
  (Return
     ("before A&amp;B mid " ++
      storyOpenTag Sample.twine story_A_and_B None (Some 1) ++
      styleElement story_A_and_B ++ scriptElement story_A_and_B ++
      ("<tw-passagedata " ++ attr "pid" "1" ++ " " ++
       attr "name" "One &lt;b&gt;" ++ " " ++ attr "tags" "x y" ++ " " ++
       attr "position" "10,20" ++ " " ++ attr "size" "100,100" ++
       ">He said $1 &amp; left</tw-passagedata>") ++
      "</tw-storydata>" ++ " after"),
   1).
Proof. reflexivity. Qed.

(** C9, as stated, fails. With the template [{{STORY_DATA}}] in place
    and a story without start passage, [publishStoryWithFormat] throws
    NoStartPoint; and with a source that is there but empty it throws
    MissingTemplateSource. *)
Lemma format_with_source_can_throw :
  run (publishStoryWithFormat Sample.twine (Sample.story "S" [] None [])
         (Sample.format "{{STORY_DATA}}") None None) =
    (Throw NoStartPoint, 1) /\
  run (publishStoryWithFormat Sample.twine (Sample.story "S" [] None [])
         (Sample.format "") None None) =
    (Throw MissingTemplateSource, 0).
Proof. split; reflexivity. Qed.

(** C9, amended. [publishStoryWithFormat] throws MissingTemplateSource
    exactly when the format has no [properties], no [properties.source],
    or an empty source, and then [publishStory] is not called. With a
    non-empty source it never throws MissingTemplateSource: it returns
    when [publishStory] returns in strict mode or when the template,
    after the name substitution, has no [STORY_DATA] token; otherwise it
    throws what [publishStory] throws. *)
Theorem template_source_required {number : Type} `{JSNumber number}
  (appInfo : AppInfo.t) (story : Story.t number) (format : Format.t)
  (formatOptions startId : option string) :
  let result :=
    run (publishStoryWithFormat appInfo story format formatOptions startId) in
  (fst result = Throw MissingTemplateSource <-> usable format = false) /\
  (usable format = false -> result = (Throw MissingTemplateSource, 0)) /\
  (forall (properties : Format.props) (source : string),
      Format.properties format = Some properties ->
      Format.source properties = Some source ->
      source <> "" ->
      let named := replaceAll STORY_NAME (escape (Story.name story)) source in
      (forall data : string,
          publishStory appInfo story formatOptions startId false =
            Return data ->
          fst result = Return (replaceAll STORY_DATA data named)) /\
      (occurrences STORY_DATA named = 0 -> result = (Return named, 0)) /\
      (forall e : exn,
          publishStory appInfo story formatOptions startId false = Throw e ->
          occurrences STORY_DATA named <> 0 ->
          result = (Throw e, 1))).
Proof.
  cbv zeta.
  assert (Hno : usable format = false ->
                run (publishStoryWithFormat appInfo story format
                       formatOptions startId) =
                (Throw MissingTemplateSource, 0)).
  { intros Hu. apply publishStoryWithFormat_no_source.
    unfold usable in Hu. now destruct (Format.properties format). }
  assert (Hyes : forall properties source,
             Format.properties format = Some properties ->
             Format.source properties = Some source ->
             source <> "" -> usable format = true).
  { intros properties source Hp Hs Hne. unfold usable. rewrite Hp, Hs.
    simpl. apply eqb_neq in Hne. now rewrite Hne. }
  split; [|split].
  - split.
    + intros Hthrow. destruct (usable format) eqn:Hu; [|reflexivity].
      exfalso. unfold usable in Hu.
      destruct (Format.properties format) as [properties|] eqn:Hp;
        [|discriminate].
      destruct (Format.source properties) as [source|] eqn:Hs;
        [|discriminate].
      assert (Hne : source <> "").
      { simpl in Hu. intros ->. discriminate. }
      rewrite (publishStoryWithFormat_run _ _ _ _ _ _ _ Hp Hs Hne) in Hthrow.
      cbv zeta in Hthrow.
      destruct (publishStory appInfo story formatOptions startId false)
        as [data|e] eqn:Hpub; [discriminate|].
      destruct (occurrences STORY_DATA _); [discriminate|].
      cbn [fst] in Hthrow. injection Hthrow as ->.
      apply publishStory_throws in Hpub as [Hpub|Hpub]; discriminate.
    + intros Hu. now rewrite (Hno Hu).
  - exact Hno.
  - intros properties source Hp Hs Hne.
    rewrite (publishStoryWithFormat_run _ _ _ _ _ _ _ Hp Hs Hne). cbv zeta.
    split; [|split].
    + now intros data ->.
    + intros Hocc. rewrite Hocc.
      destruct (publishStory appInfo story formatOptions startId false)
        as [data|e]; [|reflexivity].
      unfold replaceAll, occurrences in *.
      pose proof (pieces_no_match STORY_DATA
                    (replaceAll STORY_NAME (escape (Story.name story)) source)
                    STORY_DATA_nonempty) as Hpieces.
      unfold replaceAll in Hpieces.
      destruct (pieces STORY_DATA _) as [q qs]. cbn [snd fst] in *.
      destruct qs; [|discriminate]. unfold glue; cbn [fst snd glue_rest].
      now rewrite append_nil_r, (Hpieces eq_refl).
    + intros e -> Hocc.
      now destruct (occurrences STORY_DATA _).
Qed.

(** A format without [properties]: MissingTemplateSource, and no call
    of [publishStory]. *)
Lemma template_source_required_witness :
  run (publishStoryWithFormat Sample.twine (Sample.story "S" [] None [])
         (Format.Build None) None None) =
  (Throw MissingTemplateSource, 0).
Proof.
  apply (proj1 (proj2 (template_source_required Sample.twine
                         (Sample.story "S" [] None []) (Format.Build None)
                         None None))).
  reflexivity.
Defined.

(** C10. The two replacements run one after the other over the whole
    string: first every [STORY_NAME] token becomes the escaped story
    name, then every [STORY_DATA] token of what results becomes the
    serialized story, and [publishStory] is called once for each of
    those tokens (once only when it throws, and not at all without such
    a token). So a story whose name is [{{STORY_DATA}}] gets the
    serialized story where its name was substituted: the sample story
    with the template [{{STORY_NAME}}|{{STORY_DATA}}] yields the
    serialized story twice, with two calls. *)
Theorem substitutions_are_sequential :
  (forall (number : Type) (N : JSNumber number)
          (appInfo : AppInfo.t) (story : Story.t number) (format : Format.t)
          (formatOptions startId : option string)
          (properties : Format.props) (source : string),
      Format.properties format = Some properties ->
      Format.source properties = Some source ->
      source <> "" ->
      let named := replaceAll STORY_NAME (escape (Story.name story)) source in
      run (publishStoryWithFormat appInfo story format formatOptions startId) =
      match publishStory appInfo story formatOptions startId false with
      | Return data =>
          (Return (replaceAll STORY_DATA data named),
           occurrences STORY_DATA named)
      | Throw e =>
          match occurrences STORY_DATA named with
          | O => (Return named, 0)
          | S _ => (Throw e, 1)
          end
      end) /\
  (forall (number : Type) (N : JSNumber number)
          (appInfo : AppInfo.t) (story : Story.t number)
          (formatOptions startId : option string) (data : string),
      Story.name story = STORY_DATA ->
      publishStory appInfo story formatOptions startId false = Return data ->
      run (publishStoryWithFormat appInfo story
             (Format.Build (Some (Format.BuildProps (Some STORY_NAME))))
             formatOptions startId) =
      (Return data, 1)) /\
  (exists data : string,
      publishStory Sample.twine story_named_placeholder None None false =
        Return data /\
      Story.name story_named_placeholder = STORY_DATA /\
      replaceAll STORY_NAME (escape (Story.name story_named_placeholder))
        "{{STORY_NAME}}|{{STORY_DATA}}" = "{{STORY_DATA}}|{{STORY_DATA}}" /\
      run (publishStoryWithFormat Sample.twine story_named_placeholder
             (Sample.format "{{STORY_NAME}}|{{STORY_DATA}}") None None) =
      (Return (data ++ "|" ++ data), 2)).
Proof.
  split; [|split].
  - intros number N appInfo story format formatOptions startId properties
      source Hp Hs Hne.
    apply (publishStoryWithFormat_run _ _ _ _ _ _ _ Hp Hs Hne).
  - intros number N appInfo story formatOptions startId data Hname Hdata.
    rewrite (publishStoryWithFormat_run appInfo story
               (Format.Build (Some (Format.BuildProps (Some STORY_NAME))))
               formatOptions startId
               (Format.BuildProps (Some STORY_NAME)) STORY_NAME
               eq_refl eq_refl STORY_NAME_nonempty).
    rewrite Hdata, Hname. cbv zeta.
    change (replaceAll STORY_NAME (escape STORY_DATA) STORY_NAME)
      with STORY_DATA.
    change (occurrences STORY_DATA STORY_DATA) with 1.
    f_equal. unfold replaceAll.
    change (pieces STORY_DATA STORY_DATA) with ("", [""]).
    unfold glue; cbn [fst snd glue_rest]. simpl. now rewrite append_nil_r.
  - eexists. split; [reflexivity|]. split; [reflexivity|].
    split; [reflexivity|]. vm_compute. reflexivity.
Qed.

(** The first part at the sample story and the two-token template. *)
Lemma substitutions_are_sequential_witness :
  run (publishStoryWithFormat Sample.twine story_named_placeholder
         (Sample.format "{{STORY_NAME}}|{{STORY_DATA}}") None None) =
  (Return
     (replaceAll STORY_DATA
        (storyMarkup Sample.twine story_named_placeholder None (Some "b"))
        "{{STORY_DATA}}|{{STORY_DATA}}"),
   2).
Proof.
  apply (proj1 substitutions_are_sequential Z Z_JSNumber Sample.twine
           story_named_placeholder
           (Sample.format "{{STORY_NAME}}|{{STORY_DATA}}") None None
           (Format.BuildProps (Some "{{STORY_NAME}}|{{STORY_DATA}}"))
           "{{STORY_NAME}}|{{STORY_DATA}}" eq_refl eq_refl).
  discriminate.
Defined.

(** ** Tag colours *)

Lemma Object_get_entry (o : list (string * string)) (k v : string) :
  NoDup (Object_keys o) -> In (k, v) o -> Object_get o k = Some v.
Proof.
  induction o as [|[k' v'] o IH]; intros Hnd Hin; [easy|].
  cbn [Object_keys map fst] in Hnd. inversion Hnd as [|? ? Hnotin Hnd']; subst.
  cbn [Object_get]. destruct Hin as [[= -> ->]|Hin].
  - now rewrite eqb_refl.
  - destruct (k' =? k) eqn:E; [|now apply IH].
    apply eqb_eq in E; subst k'. elim Hnotin.
    unfold Object_keys. now apply (in_map fst o (k, v)).
Qed.

(** With distinct keys, the array [tagData] holds one tag element per
    entry of [tagColors], in the order of [Object.keys]. *)
Lemma tagData_entries {number : Type} `{JSNumber number}
  (story : Story.t number) :
  NoDup (Object_keys (Story.tagColors story)) ->
  tagData story =
  map (fun entry => tagElement (fst entry) (snd entry))
    (Story.tagColors story).
Proof.
  intros Hnd. unfold tagData, Object_keys. rewrite map_map.
  apply map_ext_in. intros [k v] Hin. cbn [fst snd].
  now rewrite (Object_get_entry _ k v Hnd Hin).
Qed.

(** The content of the story element, for every story: the tag elements
    are joined by commas. With at most one tag colour no comma
    appears. *)
Lemma publishStory_content {number : Type} `{JSNumber number}
  (appInfo : AppInfo.t) (story : Story.t number)
  (formatOptions startId : option string) (startOptional : bool)
  (out : string) :
  NoDup (Object_keys (Story.tagColors story)) ->
  publishStory appInfo story formatOptions startId startOptional =
    Return out ->
  exists startLocalId : option nat,
    out =
      storyOpenTag appInfo story formatOptions startLocalId ++
      styleElement story ++
      scriptElement story ++
      String.concat ","
        (map (fun entry => tagElement (fst entry) (snd entry))
           (Story.tagColors story)) ++
      passageElements (Story.passages story) 0 ++
      "</tw-storydata>".
Proof.
  intros Hnd Hout.
  assert (Hm : out = storyMarkup appInfo story formatOptions
                       (or_else startId (Story.startPassage story))).
  { destruct startOptional.
    - rewrite publishStory_lenient in Hout. now injection Hout as <-.
    - rewrite publishStory_strict in Hout. cbv zeta in Hout.
      destruct (negb (truthy _)); [discriminate|].
      destruct (find _ _); [|discriminate].
      now injection Hout as <-. }
  subst out. rewrite storyMarkup_parts, (tagData_entries story Hnd).
  eexists. reflexivity.
Qed.

(** C1. The content of the story element is the style element, the
    script element, the tag elements and the passage elements, in this
    order; but the tag elements come from an array that is turned into
    a string, so with two tag colours a comma stands between the two tag
    elements. *)
Theorem comma_between_tag_elements :
  publishStory Sample.twine story_two_tags None None true =
  Return
    (storyOpenTag Sample.twine story_two_tags None None ++
     styleElement story_two_tags ++
     scriptElement story_two_tags ++
     (tagElement "red" "#f00" ++ "," ++ tagElement "blue" "#00f") ++
     publishPassage Sample.first 1 ++
     "</tw-storydata>").
Proof. reflexivity. Qed.

(** * Further properties of the publisher *)

(** ** Strict and lenient mode *)

Section WalkFacts.

Context {number : Type} `{JSNumber number}.

Implicit Types (p : Passage.t number) (ps : list (Passage.t number)).

(** A start number found by the walk is the position, counted from
    one, of a passage with the start identifier, unless the walk began
    with it. *)
Lemma forEach_visit_Some (startId : option string) ps index (st : walk)
  (k : nat) :
  startLocalId (forEach (visit startId) ps index st) = Some k ->
  startLocalId st = Some k \/
  exists j p,
    nth_error ps j = Some p /\ id_is startId p = true /\ k = index + j + 1.
Proof.
  revert index st; induction ps as [|x ps IH]; intros index st Hk.
  - now left.
  - cbn [forEach] in Hk. apply IH in Hk as [Hk | (j & p & Hj & Hp & ->)].
    + unfold visit in Hk; cbn [startLocalId] in Hk.
      destruct (id_is startId x) eqn:Hx; [|now left].
      right. exists 0, x. injection Hk as <-.
      repeat split; [exact Hx | lia].
    + right. exists (S j), p. repeat split; [exact Hj | exact Hp | lia].
Qed.

(** Once a start number is set, the walk keeps one. *)
Lemma forEach_visit_keeps (startId : option string) ps index (st : walk) :
  startLocalId st <> None ->
  startLocalId (forEach (visit startId) ps index st) <> None.
Proof.
  revert index st; induction ps as [|x ps IH]; intros index st Hst;
    [exact Hst|].
  cbn [forEach]. apply IH. unfold visit; cbn [startLocalId].
  now destruct (id_is startId x).
Qed.

Lemma forEach_visit_finds (startId : option string) ps index (st : walk) p :
  In p ps -> id_is startId p = true ->
  startLocalId (forEach (visit startId) ps index st) <> None.
Proof.
  revert index st; induction ps as [|x ps IH]; intros index st Hin Hp;
    [easy|].
  cbn [forEach]. destruct Hin as [-> | Hin].
  - apply forEach_visit_keeps. unfold visit; cbn [startLocalId].
    now rewrite Hp.
  - now apply IH.
Qed.

(** What [publishStory] returns is always [storyMarkup] at the
    effective start identifier. *)
Lemma publishStory_Return (appInfo : AppInfo.t) (story : Story.t number)
  (formatOptions startId : option string) (startOptional : bool)
  (out : string) :
  publishStory appInfo story formatOptions startId startOptional =
    Return out ->
  out = storyMarkup appInfo story formatOptions
          (or_else startId (Story.startPassage story)).
Proof.
  destruct startOptional.
  - rewrite publishStory_lenient. now intros [= <-].
  - rewrite publishStory_strict. cbv zeta.
    destruct (negb (truthy _)); [discriminate|].
    destruct (find _ _); [|discriminate]. now intros [= <-].
Qed.

End WalkFacts.

(** X1. Strict mode only adds the validation: whenever [publishStory]
    returns in strict mode, lenient mode returns the same markup for the
    same arguments. *)
Theorem strict_output_is_lenient_output {number : Type} `{JSNumber number}
  (appInfo : AppInfo.t) (story : Story.t number)
  (formatOptions startId : option string) (out : string) :
  publishStory appInfo story formatOptions startId false = Return out ->
  publishStory appInfo story formatOptions startId true = Return out.
Proof.
  intros Hout. apply publishStory_Return in Hout as ->.
  apply publishStory_lenient.
Qed.

Lemma strict_output_is_lenient_output_witness :
  publishStory Sample.twine story_declaring_b None None true =
  Return (storyMarkup Sample.twine story_declaring_b None (Some "b")).
Proof.
  apply (strict_output_is_lenient_output Sample.twine story_declaring_b
           None None).
  reflexivity.
Defined.

(** X2. Whenever [publishStory] returns, a [startnode] that is not
    empty is the number of a passage of the story, between 1 and the
    number of passages, and that passage has the effective start
    identifier; in strict mode the [startnode] is never empty. *)
Theorem startnode_points_at_start_passage {number : Type} `{JSNumber number}
  (appInfo : AppInfo.t) (story : Story.t number)
  (formatOptions startId : option string) (startOptional : bool)
  (out : string) :
  publishStory appInfo story formatOptions startId startOptional =
    Return out ->
  exists startLocalId : option nat,
    out =
      storyOpenTag appInfo story formatOptions startLocalId ++
      styleElement story ++ scriptElement story ++
      Array_toString (tagData story) ++
      passageElements (Story.passages story) 0 ++
      "</tw-storydata>" /\
    (forall k : nat,
        startLocalId = Some k ->
        1 <= k <= List.length (Story.passages story) /\
        startnode startLocalId = nat_toString k /\
        exists p,
          nth_error (Story.passages story) (k - 1) = Some p /\
          or_else startId (Story.startPassage story) =
            Some (Passage.id p)) /\
    (startLocalId = None -> startnode startLocalId = "") /\
    (startOptional = false -> startLocalId <> None).
Proof.
  intros Hout. pose proof (publishStory_Return _ _ _ _ _ _ Hout) as ->.
  rewrite storyMarkup_parts.
  set (effective := or_else startId (Story.startPassage story)).
  eexists. split; [reflexivity|]. split; [|split].
  - intros k Hk. pose proof Hk as Hk'.
    apply forEach_visit_Some in Hk' as [Hk' | (j & p & Hj & Hp & Hkj)];
      [discriminate|].
    cbn [plus] in Hkj. subst k. rewrite Hk.
    assert (Hlen : j < List.length (Story.passages story))
      by (apply nth_error_Some; now rewrite Hj).
    split; [lia|]. split; [apply startnode_succ|].
    exists p. split.
    + now replace (j + 1 - 1) with j by lia.
    + now apply id_is_true.
  - now intros ->.
  - intros ->. rewrite publishStory_strict in Hout. cbv zeta in Hout.
    fold effective in Hout.
    destruct (negb (truthy effective)); [discriminate|].
    destruct (find (id_is effective) (Story.passages story)) as [p|] eqn:Hf;
      [|discriminate].
    apply find_some in Hf as [Hin Hp].
    now apply (forEach_visit_finds effective _ 0 _ p).
Qed.

Lemma startnode_points_at_start_passage_witness :
  exists startLocalId : option nat,
    storyMarkup Sample.twine story_declaring_b None (Some "b") =
      storyOpenTag Sample.twine story_declaring_b None startLocalId ++
      styleElement story_declaring_b ++ scriptElement story_declaring_b ++
      Array_toString (tagData story_declaring_b) ++
      passageElements (Story.passages story_declaring_b) 0 ++
      "</tw-storydata>" /\
    (forall k : nat,
        startLocalId = Some k ->
        1 <= k <= List.length (Story.passages story_declaring_b) /\
        startnode startLocalId = nat_toString k /\
        exists p,
          nth_error (Story.passages story_declaring_b) (k - 1) = Some p /\
          or_else None (Story.startPassage story_declaring_b) =
            Some (Passage.id p)) /\
    (startLocalId = None -> startnode startLocalId = "") /\
    (false = false -> startLocalId <> None).
Proof.
  apply (startnode_points_at_start_passage Sample.twine story_declaring_b
           None None false).
  reflexivity.
Defined.

(** ** Archives of several lists *)

Lemma concat_app (l l' : list string) :
  String.concat "" (l ++ l') = String.concat "" l ++ String.concat "" l'.
Proof.
  induction l as [|x l IH]; [reflexivity|].
  cbn [app]. now rewrite !concat_cons, IH, append_assoc.
Qed.

(** X3. The archive of two lists of stories put one after the other is
    the archive of the first followed by the archive of the second; no
    archive throws. *)
Theorem publishArchive_app {number : Type} `{JSNumber number}
  (appInfo : AppInfo.t) (stories stories' : list (Story.t number)) :
  exists archive archive' : string,
    publishArchive stories appInfo = Return archive /\
    publishArchive stories' appInfo = Return archive' /\
    publishArchive (stories ++ stories') appInfo =
      Return (archive ++ archive').
Proof.
  unfold publishArchive. rewrite !reduce_publish. cbn [append].
  eexists _, _. split; [reflexivity|]. split; [reflexivity|].
  now rewrite map_app, concat_app.
Qed.

(** ** Tag colours *)

(** X4. With at most one tag colour the tag elements stand in the
    content of the story element without any separator: the content is
    the style element, the script element, the tag elements and the
    passage elements, and nothing else. *)
Theorem at_most_one_tag_colour {number : Type} `{JSNumber number}
  (appInfo : AppInfo.t) (story : Story.t number)
  (formatOptions startId : option string) (startOptional : bool)
  (out : string) :
  List.length (Story.tagColors story) <= 1 ->
  publishStory appInfo story formatOptions startId startOptional =
    Return out ->
  exists startLocalId : option nat,
    out =
      storyOpenTag appInfo story formatOptions startLocalId ++
      styleElement story ++
      scriptElement story ++
      String.concat ""
        (map (fun entry => tagElement (fst entry) (snd entry))
           (Story.tagColors story)) ++
      passageElements (Story.passages story) 0 ++
      "</tw-storydata>".
Proof.
  intros Hlen Hout.
  assert (Hnd : NoDup (Object_keys (Story.tagColors story))).
  { destruct (Story.tagColors story) as [|e [|e' l]]; simpl in *;
      [constructor | repeat constructor; easy | lia]. }
  destruct (publishStory_content _ _ _ _ _ _ Hnd Hout) as [lid ->].
  exists lid. do 3 f_equal.
  destruct (Story.tagColors story) as [|e [|e' l]]; simpl in *;
    [reflexivity | reflexivity | lia].
Qed.

Lemma at_most_one_tag_colour_witness :
  exists startLocalId : option nat,
    storyMarkup Sample.twine (Sample.story "S" [("red", "#f00")] None [])
      None None =
      storyOpenTag Sample.twine
        (Sample.story "S" [("red", "#f00")] None []) None startLocalId ++
      styleElement (Sample.story "S" [("red", "#f00")] None []) ++
      scriptElement (Sample.story "S" [("red", "#f00")] None []) ++
      String.concat ""
        (map (fun entry => tagElement (fst entry) (snd entry))
           [("red", "#f00")]) ++
      passageElements (@nil (Passage.t Z)) 0 ++
      "</tw-storydata>".
Proof.
  apply (at_most_one_tag_colour Sample.twine
           (Sample.story "S" [("red", "#f00")] None []) None None true).
  - simpl. lia.
  - reflexivity.
Defined.

(** ** Stylesheet and script *)

(** X5. The stylesheet and the script are inserted as they are, without
    escaping, and nothing else of the output depends on them: for a
    given story and arguments either every stylesheet and script make
    [publishStory] throw the same error, or the output is a fixed text,
    the stylesheet, a fixed text, the script and a fixed text. *)
Theorem stylesheet_and_script_are_raw {number : Type} `{JSNumber number}
  (appInfo : AppInfo.t) (story : Story.t number)
  (formatOptions startId : option string) (startOptional : bool) :
  (exists e, forall css js : string,
      publishStory appInfo (with_stylesheet css (with_script js story))
        formatOptions startId startOptional = Throw e) \/
  (exists before between after : string, forall css js : string,
      publishStory appInfo (with_stylesheet css (with_script js story))
        formatOptions startId startOptional =
      Return (before ++ css ++ between ++ js ++ after)).
Proof.
  set (effective := or_else startId (Story.startPassage story)).
  set (st := forEach (visit effective) (Story.passages story) 0
               {| passageData := ""; startLocalId := None |}).
  assert (Hret : forall css js,
             storyMarkup appInfo (with_stylesheet css (with_script js story))
               formatOptions effective =
             (storyOpenTag appInfo story formatOptions (startLocalId st) ++
              "<style " ++ attr "role" "stylesheet" ++ " " ++
              attr "id" "twine-user-stylesheet" ++ " " ++
              attr "type" "text/twine-css" ++ ">") ++
             css ++
             ("</style>" ++
              "<script " ++ attr "role" "script" ++ " " ++
              attr "id" "twine-user-script" ++ " " ++
              attr "type" "text/twine-javascript" ++ ">") ++
             js ++
             ("</script>" ++ Array_toString (tagData story) ++
              passageData st ++ "</tw-storydata>")).
  { intros css js. unfold storyMarkup, styleElement, scriptElement.
    cbv zeta.
    cbn [with_stylesheet with_script Story.stylesheet Story.script
         Story.passages].
    fold st. repeat rewrite append_assoc. reflexivity. }
  destruct startOptional.
  - right. eexists _, _, _. intros css js.
    rewrite publishStory_lenient. f_equal. apply Hret.
  - destruct (truthy effective) eqn:Ht.
    + destruct (find (id_is effective) (Story.passages story)) eqn:Hf.
      * right. eexists _, _, _. intros css js.
        rewrite publishStory_strict. cbv zeta.
        cbn [with_stylesheet with_script Story.startPassage Story.passages].
        fold effective. rewrite Ht, Hf. cbn [negb]. f_equal. apply Hret.
      * left. exists StartPointNotFound. intros css js.
        rewrite publishStory_strict. cbv zeta.
        cbn [with_stylesheet with_script Story.startPassage Story.passages].
        fold effective. now rewrite Ht, Hf.
    + left. exists NoStartPoint. intros css js.
      rewrite publishStory_strict. cbv zeta.
      cbn [with_stylesheet with_script Story.startPassage Story.passages].
      fold effective. now rewrite Ht.
Qed.

(** ** Reading a passage element back *)

Lemma append_inv_head (a b c : string) : a ++ b = a ++ c -> b = c.
Proof.
  induction a as [|x a IH]; simpl; [easy|]. intros [= E]. now apply IH.
Qed.

Lemma append_inv_tail (a b c : string) : a ++ c = b ++ c -> a = b.
Proof.
  revert b; induction a as [|x a IH]; intros [|y b] E.
  - reflexivity.
  - apply (f_equal String.length) in E. simpl in E.
    rewrite length_append in E. lia.
  - apply (f_equal String.length) in E. simpl in E.
    rewrite length_append in E. lia.
  - simpl in E. injection E as -> E. f_equal. now apply IH.
Qed.

Lemma escape_inj (a b : string) : escape a = escape b -> a = b.
Proof.
  revert b; induction a as [|x a IH]; intros [|y b] E.
  - reflexivity.
  - exfalso. cbn [escape] in E. unfold escapeHtmlChar in E.
    destruct (htmlEscapes y) as [entity|] eqn:Ey; [|discriminate].
    destruct (htmlEscapes_cases _ _ Ey)
      as [[_ ->]|[[_ ->]|[[_ ->]|[[_ ->]|[[_ ->]|[_ ->]]]]]]; discriminate.
  - exfalso. cbn [escape] in E. unfold escapeHtmlChar in E.
    destruct (htmlEscapes x) as [entity|] eqn:Ex; [|discriminate].
    destruct (htmlEscapes_cases _ _ Ex)
      as [[_ ->]|[[_ ->]|[[_ ->]|[[_ ->]|[[_ ->]|[_ ->]]]]]]; discriminate.
  - cbn [escape] in E. unfold escapeHtmlChar in E.
    destruct (htmlEscapes x) as [ex|] eqn:Ex;
      destruct (htmlEscapes y) as [ey|] eqn:Ey.
    + destruct (htmlEscapes_cases _ _ Ex)
        as [[-> ->]|[[-> ->]|[[-> ->]|[[-> ->]|[[-> ->]|[-> ->]]]]]];
        destruct (htmlEscapes_cases _ _ Ey)
          as [[-> ->]|[[-> ->]|[[-> ->]|[[-> ->]|[[-> ->]|[-> ->]]]]]];
        simpl in E; try discriminate; injection E as E; f_equal;
          now apply IH.
    + exfalso.
      destruct (htmlEscapes_cases _ _ Ex)
        as [[_ ->]|[[_ ->]|[[_ ->]|[[_ ->]|[[_ ->]|[_ ->]]]]]];
        simpl in E; injection E as <- _; discriminate.
    + exfalso.
      destruct (htmlEscapes_cases _ _ Ey)
        as [[_ ->]|[[_ ->]|[[_ ->]|[[_ ->]|[[_ ->]|[_ ->]]]]]];
        simpl in E; injection E as -> _; discriminate.
    + simpl in E. injection E as -> E. f_equal. now apply IH.
Qed.

(** A string in escaped form ends where the next double quote stands. *)
Lemma escaped_form_until_dquote (a a' r r' : string) :
  escaped_form a = true -> escaped_form a' = true ->
  a ++ dquote ++ r = a' ++ dquote ++ r' -> a = a' /\ r = r'.
Proof.
  revert a'; induction a as [|x a IH]; intros [|y a'] Ha Ha' E.
  - simpl in E. now injection E as ->.
  - exfalso. simpl in E. injection E as <- _. simpl in Ha'. discriminate.
  - exfalso. simpl in E. injection E as -> _. simpl in Ha. discriminate.
  - simpl in E. injection E as -> E.
    assert (Htail : forall s, escaped_form (String y s) = true ->
                              escaped_form s = true).
    { intros s Hs. simpl in Hs. destruct (htmlEscapes y); [|exact Hs].
      now apply andb_prop in Hs as [_ Hs]. }
    destruct (IH a' (Htail _ Ha) (Htail _ Ha') E) as [-> ->]. now split.
Qed.

Lemma between_dquotes (a a' between t t' after : string) :
  escaped_form a = true -> escaped_form a' = true ->
  a ++ (dquote ++ between) ++ t ++ after =
  a' ++ (dquote ++ between) ++ t' ++ after ->
  a = a' /\ t = t'.
Proof.
  intros Ha Ha' E. rewrite !append_assoc in E.
  apply escaped_form_until_dquote in E as [-> E]; [|exact Ha | exact Ha'].
  apply append_inv_head, append_inv_tail in E. now split.
Qed.

(** X6. The name and the text of a passage can be read back from its
    element: two passages that differ in name and text only and are
    published under the same number have the same element only when
    their names are equal and their texts are equal. *)
Theorem passage_name_and_text_recoverable {number : Type} `{JSNumber number}
  (p : Passage.t number) (n : nat) (name text name' text' : string) :
  publishPassage (retitle name text p) n =
  publishPassage (retitle name' text' p) n ->
  name = name' /\ text = text'.
Proof.
  rewrite !publishPassage_retitle. intros E.
  apply append_inv_head in E.
  apply between_dquotes in E as [En Et]; try apply escaped_form_escape.
  split; now apply escape_inj.
Qed.

Lemma passage_name_and_text_recoverable_witness :
  "One <b>" = "One <b>" /\ "He said $1 & left" = "He said $1 & left".
Proof.
  apply (passage_name_and_text_recoverable Sample.first 1).
  reflexivity.
Defined.

Lemma nat_toString_inj (n m : nat) : nat_toString n = nat_toString m -> n = m.
Proof.
  unfold nat_toString. intros E.
  assert (Hnn : forall k, Nat.to_uint k <> Decimal.Nil).
  { intros k. rewrite <- (DecimalNat.Unsigned.of_to k) at 1.
    rewrite DecimalNat.Unsigned.to_of. apply DecimalFacts.unorm_nonnil. }
  apply (f_equal NilZero.uint_of_string) in E.
  rewrite !NilZero.usu in E by apply Hnn.
  injection E as E. now apply DecimalNat.Unsigned.to_uint_inj.
Qed.

Lemma publishPassage_pid {number : Type} `{JSNumber number}
  (p : Passage.t number) (n : nat) :
  exists rest : string,
    publishPassage p n =
    ("<tw-passagedata pid=" ++ dquote) ++ nat_toString n ++ dquote ++ rest.
Proof.
  eexists. unfold publishPassage, attr. rewrite escape_nat_toString.
  repeat rewrite append_assoc. reflexivity.
Qed.

(** X9. The number of a passage can be read back from its element:
    whatever the passages, two elements are equal only when they were
    published under the same number. The passage elements of one story
    therefore carry pairwise different [pid] attributes. *)
Theorem passage_number_recoverable {number : Type} `{JSNumber number}
  (p p' : Passage.t number) (n n' : nat) :
  publishPassage p n = publishPassage p' n' -> n = n'.
Proof.
  destruct (publishPassage_pid p n) as [rest ->].
  destruct (publishPassage_pid p' n') as [rest' ->].
  intros E. apply append_inv_head in E.
  apply escaped_form_until_dquote in E as [E _];
    try (apply plain_escaped_form, plain_nat_toString).
  now apply nat_toString_inj.
Qed.

Lemma passage_number_recoverable_witness : 2 = 2.
Proof.
  apply (passage_number_recoverable Sample.first Sample.first).
  reflexivity.
Defined.

(** ** Templates made of texts and placeholders *)

Section Parts.

(** A token that begins with an opening brace, as both placeholders
    do. *)
Variable rest : string.
Let token : string := String "{" rest.

Lemma split_from_skip (t s : string) :
  split_from token (String.length t) (t ++ s) = split_from token 0 s.
Proof. induction t as [|c t IH]; [reflexivity | exact IH]. Qed.

Lemma split_from_token (s : string) :
  split_from token 0 (token ++ s) =
  ("", fst (split_from token 0 s) :: snd (split_from token 0 s)).
Proof.
  change (token ++ s) with (String "{" (rest ++ s)).
  cbn [split_from].
  change (String "{" (rest ++ s)) with (token ++ s).
  rewrite prefix_append.
  change (String.length token - 1) with (String.length rest - 0).
  rewrite Nat.sub_0_r, split_from_skip.
  now destruct (split_from token 0 s).
Qed.

Lemma split_from_text (a s : string) :
  no_brace a = true ->
  split_from token 0 (a ++ s) =
  (a ++ fst (split_from token 0 s), snd (split_from token 0 s)).
Proof.
  induction a as [|c a IH]; intros Ha.
  - simpl. now destruct (split_from token 0 s).
  - simpl in Ha. apply andb_prop in Ha as [Hc Ha].
    change (String c a ++ s) with (String c (a ++ s)).
    cbn [split_from]. unfold token at 1. cbn [prefix].
    destruct (ascii_dec "{" c) as [<-|_]; [discriminate|].
    rewrite (IH Ha). reflexivity.
Qed.

Lemma replaceAll_token (r s : string) :
  replaceAll token r (token ++ s) = r ++ replaceAll token r s.
Proof.
  unfold replaceAll, pieces, glue. rewrite split_from_token. reflexivity.
Qed.

Lemma replaceAll_text (r a s : string) :
  no_brace a = true ->
  replaceAll token r (a ++ s) = a ++ replaceAll token r s.
Proof.
  intros Ha. unfold replaceAll, pieces, glue.
  rewrite (split_from_text a s Ha). cbn [fst snd]. apply append_assoc.
Qed.

Lemma occurrences_token (s : string) :
  occurrences token (token ++ s) = S (occurrences token s).
Proof.
  unfold occurrences, pieces. rewrite split_from_token. reflexivity.
Qed.

Lemma occurrences_text (a s : string) :
  no_brace a = true -> occurrences token (a ++ s) = occurrences token s.
Proof.
  intros Ha. unfold occurrences, pieces.
  now rewrite (split_from_text a s Ha).
Qed.

End Parts.

Lemma no_brace_escape (s : string) : no_brace s = true -> no_brace (escape s) = true.
Proof.
  induction s as [|c s IH]; [reflexivity|].
  simpl. intros Hs. apply andb_prop in Hs as [Hc Hs].
  unfold escapeHtmlChar. destruct (htmlEscapes c) as [entity|] eqn:E.
  - destruct (htmlEscapes_cases _ _ E)
      as [[_ ->]|[[_ ->]|[[_ ->]|[[_ ->]|[[_ ->]|[_ ->]]]]]]; simpl; now apply IH.
  - simpl. rewrite Hc. now apply IH.
Qed.

(** The name pass leaves a data placeholder alone. *)
Lemma replaceAll_name_over_data (r s : string) :
  replaceAll STORY_NAME r (STORY_DATA ++ s) =
  STORY_DATA ++ replaceAll STORY_NAME r s.
Proof.
  unfold replaceAll, pieces, glue. simpl.
  now destruct (split_from STORY_NAME 0 s).
Qed.

Lemma name_pass (name : string) (parts : list part) :
  forallb literal_ok parts = true ->
  replaceAll STORY_NAME name (render parts) = bound name STORY_DATA parts.
Proof.
  induction parts as [|[s| |] parts IH]; intros Hok; [reflexivity| | |].
  - simpl in Hok. apply andb_prop in Hok as [Hs Hok]. cbn [render bound].
    rewrite (replaceAll_text "{STORY_NAME}}" name s _ Hs).
    f_equal. now apply IH.
  - cbn [render bound].
    rewrite (replaceAll_token "{STORY_NAME}}" name).
    f_equal. now apply IH.
  - cbn [render bound]. rewrite replaceAll_name_over_data.
    f_equal. now apply IH.
Qed.

Lemma data_pass (name data : string) (parts : list part) :
  forallb literal_ok parts = true ->
  no_brace name = true ->
  replaceAll STORY_DATA data (bound name STORY_DATA parts) =
    bound name data parts /\
  occurrences STORY_DATA (bound name STORY_DATA parts) =
    List.length (filter is_data parts).
Proof.
  intros Hok Hname.
  induction parts as [|[s| |] parts IH]; [now split| | |].
  - simpl in Hok. apply andb_prop in Hok as [Hs Hok].
    destruct (IH Hok) as [IH1 IH2]. cbn [bound filter is_data]. split.
    + rewrite (replaceAll_text "{STORY_DATA}}" data s _ Hs).
      f_equal. exact IH1.
    + rewrite (occurrences_text "{STORY_DATA}}" s _ Hs). exact IH2.
  - destruct (IH Hok) as [IH1 IH2]. cbn [bound filter is_data]. split.
    + rewrite (replaceAll_text "{STORY_DATA}}" data name _ Hname).
      f_equal. exact IH1.
    + rewrite (occurrences_text "{STORY_DATA}}" name _ Hname). exact IH2.
  - destruct (IH Hok) as [IH1 IH2]. cbn [bound filter is_data]. split.
    + rewrite (replaceAll_token "{STORY_DATA}}" data).
      f_equal. exact IH1.
    + rewrite (occurrences_token "{STORY_DATA}}"). cbn [List.length].
      f_equal. exact IH2.
Qed.

(** X7. For a template that is a sequence of texts without opening
    brace and of placeholders, and a story whose name has no opening
    brace, [publishStoryWithFormat] returns the texts as they are, the
    escaped story name at every name placeholder and the serialized
    story at every data placeholder, and calls [publishStory] once per
    data placeholder; when [publishStory] throws, the error comes out
    after one call if the template has a data placeholder, and
    otherwise the bound template is returned without any call. *)
Theorem format_binding_of_parts {number : Type} `{JSNumber number}
  (appInfo : AppInfo.t) (story : Story.t number) (format : Format.t)
  (formatOptions startId : option string)
  (properties : Format.props) (parts : list part) :
  Format.properties format = Some properties ->
  Format.source properties = Some (render parts) ->
  render parts <> "" ->
  forallb literal_ok parts = true ->
  no_brace (Story.name story) = true ->
  run (publishStoryWithFormat appInfo story format formatOptions startId) =
  match publishStory appInfo story formatOptions startId false with
  | Return data =>
      (Return (bound (escape (Story.name story)) data parts),
       List.length (filter is_data parts))
  | Throw e =>
      match filter is_data parts with
      | [] => (Return (bound (escape (Story.name story)) STORY_DATA parts), 0)
      | _ :: _ => (Throw e, 1)
      end
  end.
Proof.
  intros Hp Hs Hne Hok Hname.
  rewrite (publishStoryWithFormat_run _ _ _ _ _ _ _ Hp Hs Hne). cbv zeta.
  rewrite (name_pass _ _ Hok).
  destruct (data_pass (escape (Story.name story)) "" parts Hok
              (no_brace_escape _ Hname)) as [_ Hocc].
  rewrite Hocc.
  destruct (publishStory appInfo story formatOptions startId false)
    as [data|e].
  - now rewrite (proj1 (data_pass _ data parts Hok
                          (no_brace_escape _ Hname))).
  - now destruct (filter is_data parts).
Qed.

(** The example template of the specification, part by part. *)
Lemma format_binding_of_parts_witness :
  run (publishStoryWithFormat Sample.twine story_A_and_B
         format_before_mid_after None None) =
  (Return
     ("before " ++ "A&amp;B" ++ " mid " ++
      storyMarkup Sample.twine story_A_and_B None (Some "a") ++ " after"),
   1).
Proof.
  apply (format_binding_of_parts Sample.twine story_A_and_B
           format_before_mid_after None None
           (Format.BuildProps
              (Some "before {{STORY_NAME}} mid {{STORY_DATA}} after"))
           [Text "before "; NamePlaceholder; Text " mid "; DataPlaceholder;
            Text " after"]).
  - reflexivity.
  - reflexivity.
  - discriminate.
  - reflexivity.
  - reflexivity.
Defined.

(** ** The archive file *)

Lemma replace_path_unsafe_get (s : string) (i : nat) :
  String.get i (replace_path_unsafe s) =
  option_map dot_if_unsafe (String.get i s).
Proof.
  revert i; induction s as [|c s IH]; intros i; [reflexivity|].
  cbn [replace_path_unsafe]. unfold dot_if_unsafe at 1.
  destruct i as [|i]; destruct (path_unsafe c) eqn:E; simpl;
    rewrite ?E; try reflexivity; apply IH.
Qed.

Lemma replace_path_unsafe_length (s : string) :
  String.length (replace_path_unsafe s) = String.length s.
Proof.
  induction s as [|c s IH]; [reflexivity|].
  cbn [replace_path_unsafe]. destruct (path_unsafe c); simpl; now rewrite IH.
Qed.

Lemma replace_path_unsafe_safe (s : string) :
  path_safe (replace_path_unsafe s) = true.
Proof.
  induction s as [|c s IH]; [reflexivity|].
  cbn [replace_path_unsafe]. destruct (path_unsafe c) eqn:E; simpl.
  - exact IH.
  - now rewrite E.
Qed.

Lemma replace_path_unsafe_id (s : string) :
  path_safe s = true -> replace_path_unsafe s = s.
Proof.
  induction s as [|c s IH]; [reflexivity|].
  simpl. destruct (path_unsafe c); [discriminate|].
  simpl. intros Hs. now rewrite IH.
Qed.

(** X8. [publishArchiveToFile] never throws, whatever the stories and
    their start passages: it makes one call of [saveAs], with a blob
    whose only part is the result of [publishArchive] and whose type is
    [text/html;charset=utf-8]. The file name is the clock's string with
    every slash, colon and backslash turned into a dot, every other
    character kept in place, then one space and the translated name as
    the translation gives it. The clock's part of the name thus has none
    of the three characters and is the clock's string itself when that
    has none. *)
Theorem archive_file {number : Type} `{JSNumber number}
  (localeString : string) (t : string -> string)
  (stories : list (Story.t number)) (appInfo : AppInfo.t) :
  exists archive timestamp : string,
    publishArchive stories appInfo = Return archive /\
    publishArchiveToFile localeString t stories appInfo =
      Return
        {| saved_data :=
             {| blobParts := [archive];
                blobType := "text/html;charset=utf-8" |};
           saved_filename := timestamp ++ " " ++ t "store.archiveFilename" |} /\
    String.length timestamp = String.length localeString /\
    (forall i : nat,
        String.get i timestamp =
        option_map dot_if_unsafe (String.get i localeString)) /\
    path_safe timestamp = true /\
    (path_safe localeString = true -> timestamp = localeString).
Proof.
  assert (Harchive : publishArchive stories appInfo =
                     Return
                       ("" ++
                        String.concat ""
                          (map
                             (fun story =>
                                returned
                                  (publishStory appInfo story None None
                                     true) ++ newline ++ newline)
                             stories)))
    by apply reduce_publish.
  eexists _, (replace_path_unsafe localeString).
  split; [apply Harchive|]. split; [|split; [|split; [|split]]].
  - unfold publishArchiveToFile. now rewrite Harchive.
  - apply replace_path_unsafe_length.
  - apply replace_path_unsafe_get.
  - apply replace_path_unsafe_safe.
  - apply replace_path_unsafe_id.
Qed.

(** ** Adding passages, tags with spaces *)

Lemma passageElements_app {number : Type} `{JSNumber number}
  (ps extra : list (Passage.t number)) (index : nat) :
  passageElements (ps ++ extra) index =
  passageElements ps index ++
  passageElements extra (index + List.length ps).
Proof.
  revert index; induction ps as [|p ps IH]; intros index.
  - simpl. now rewrite Nat.add_0_r.
  - cbn [app passageElements List.length]. rewrite IH, append_assoc.
    now replace (S index + List.length ps)
      with (index + S (List.length ps)) by lia.
Qed.

(** X10. Passages added at the end of a story do not renumber the
    others: in lenient mode the passage elements of the longer story are
    those of the story, unchanged, followed by the elements of the added
    passages numbered from the old number of passages plus one. *)
Theorem added_passages_keep_numbers {number : Type} `{JSNumber number}
  (appInfo : AppInfo.t) (story : Story.t number)
  (formatOptions startId : option string)
  (extra : list (Passage.t number)) :
  exists startLocalId startLocalId' : option nat,
    publishStory appInfo story formatOptions startId true =
      Return
        (storyOpenTag appInfo story formatOptions startLocalId ++
         styleElement story ++ scriptElement story ++
         Array_toString (tagData story) ++
         passageElements (Story.passages story) 0 ++
         "</tw-storydata>") /\
    publishStory appInfo
      (with_passages (Story.passages story ++ extra) story)
      formatOptions startId true =
      Return
        (storyOpenTag appInfo story formatOptions startLocalId' ++
         styleElement story ++ scriptElement story ++
         Array_toString (tagData story) ++
         (passageElements (Story.passages story) 0 ++
          passageElements extra (List.length (Story.passages story))) ++
         "</tw-storydata>").
Proof.
  eexists _, _. split.
  - rewrite publishStory_lenient, storyMarkup_parts. reflexivity.
  - rewrite publishStory_lenient, storyMarkup_parts.
    cbn [with_passages Story.passages Story.startPassage].
    rewrite passageElements_app. reflexivity.
Qed.

(** X11. Tags are joined by a space and not delimited otherwise, so a
    tag that holds a space cannot be told from two tags: a passage
    whose first tag is [t], a space and [u] has the same element as the
    passage that has the two tags [t] and [u] in its place. *)
Theorem tag_with_space_reads_as_two_tags {number : Type} `{JSNumber number}
  (p : Passage.t number) (n : nat) (t u : string) (tags : list string) :
  publishPassage (with_tags ((t ++ " " ++ u) :: tags) p) n =
  publishPassage (with_tags (t :: u :: tags) p) n.
Proof.
  unfold publishPassage, with_tags, Array_join.
  cbn [Passage.name Passage.tags Passage.left Passage.top Passage.width
       Passage.height Passage.text].
  do 6 f_equal.
  destruct tags as [|v tags]; cbn [String.concat];
    now rewrite ?append_assoc.
Qed.
